(** * User Manager (src/App.jsx): a shallow embedding of the component's
      state and event handlers, and the properties of its specification.

    The component is one React function.  Its [useState] cells form the
    record [State]; every handler is a program of the small monad [Proc]
    whose operations are the ones the handlers perform: queueing a state
    update, calling a synchronous browser service, awaiting a request,
    throwing.  A handler closes over the values of the render it was
    created in, so a handler is a function of that snapshot; functional
    updates ([setPosts(prev => ...)]) read the live state instead. *)

From Stdlib Require Import String Ascii NArith ZArith Bool Lia List.
Import ListNotations.

Set Implicit Arguments.

(* ------------------------------------------------------------------ *)
(** ** JavaScript strings                                               *)
(* ------------------------------------------------------------------ *)

Module JS.

(** A JavaScript string is a sequence of UTF-16 code units. *)
Definition jsstring : Set := list N.

Definition jsstring_eq_dec (a b : jsstring) : {a = b} + {a <> b} :=
  list_eq_dec N.eq_dec a b.

(** String literals of the source, written as Rocq strings. *)
Definition lit (s : string) : jsstring :=
  map N_of_ascii (list_ascii_of_string s).

(** WhiteSpace and LineTerminator code points of ECMAScript: what
    [String.prototype.trim] strips and what [\s] matches. *)
Definition isWhiteSpace (c : N) : bool :=
  ((9 <=? c) && (c <=? 13) || (c =? 32) || (c =? 160) || (c =? 5760)
   || (8192 <=? c) && (c <=? 8202) || (c =? 8232) || (c =? 8233)
   || (c =? 8239) || (c =? 8287) || (c =? 12288) || (c =? 65279))%N.

Fixpoint dropWhile (p : N -> bool) (s : jsstring) : jsstring :=
  match s with
  | [] => []
  | c :: s' => if p c then dropWhile p s' else s
  end.

Definition trimStart (s : jsstring) : jsstring := dropWhile isWhiteSpace s.
Definition trimEnd (s : jsstring) : jsstring :=
  rev (dropWhile isWhiteSpace (rev s)).
Definition trim (s : jsstring) : jsstring := trimEnd (trimStart s).

(** [s.startsWith(p)] *)
Fixpoint startsWith (s p : jsstring) : bool :=
  match p, s with
  | [], _ => true
  | _ :: _, [] => false
  | a :: p', b :: s' => (a =? b)%N && startsWith s' p'
  end.

(** [s.replace(/\s+/g, "")] *)
Definition stripWhiteSpace (s : jsstring) : jsstring :=
  filter (fun c => negb (isWhiteSpace c)) s.

(** Truthiness of a string: only the empty string is falsy. *)
Definition truthy (s : jsstring) : bool :=
  match s with [] => false | _ :: _ => true end.

(** Truthiness of a value that is a string, [null] or [undefined]. *)
Definition truthy_opt (s : option jsstring) : bool :=
  match s with Some v => truthy v | None => false end.

(** [a || b] on such values. *)
Definition or_else (a b : option jsstring) : option jsstring :=
  if truthy_opt a then a else b.

(** Whitespace-only strings, the empty one included. *)
Definition blank (s : jsstring) : bool := forallb isWhiteSpace s.

End JS.
Import JS.

(* ------------------------------------------------------------------ *)
(** ** Data model                                                       *)
(* ------------------------------------------------------------------ *)

(** Identifiers are numbers ([Date.now()], the placeholder API) or
    strings (the mock API); [===] never identifies the two kinds. *)
Inductive Id : Set :=
| IdNum (z : Z)
| IdStr (s : jsstring).

Definition Id_eq_dec (a b : Id) : {a = b} + {a <> b}.
Proof. decide equality; [apply Z.eq_dec | apply jsstring_eq_dec]. Defined.

(** [a === b] *)
Definition strict_eq (a b : Id) : bool := if Id_eq_dec a b then true else false.

(** Truthiness of an id: [0] and [""] are falsy. *)
Definition truthy_id (i : Id) : bool :=
  match i with
  | IdNum z => negb (z =? 0)%Z
  | IdStr s => truthy s
  end.

Record User : Set := mkUser {
  user_id : Id;
  user_name : jsstring;
  user_email : jsstring;
  user_avatar : option jsstring;
  user_username : option jsstring;
  user_address_city : option jsstring;
  user_company_name : option jsstring;
  user_createdAt : option jsstring
}.

Record Post : Set := mkPost {
  post_id : Id;
  post_title : jsstring;
  post_body : jsstring;
  post_userId : Id
}.

(** The body of the create-post request: [{ title, body, userId }]. *)
Record NewPost : Set := mkNewPost {
  np_title : jsstring;
  np_body : jsstring;
  np_userId : Id
}.

Record Album : Set := mkAlbum {
  album_id : Id;
  album_title : jsstring;
  album_userId : Id;
  album_thumbnailUrl : option jsstring
}.

Record Photo : Set := mkPhoto {
  photo_id : Id;
  photo_albumId : Id;
  photo_thumbnailUrl : option jsstring
}.

(** A [File] of the picker or of a drop. *)
Record File : Set := mkFile {
  file_type : jsstring;
  file_size : N
}.

Inductive Tab : Set := TabPosts | TabAlbums.

(** [{ ...created, id: v }] *)
Definition post_with_id (created : Post) (v : Id) : Post :=
  mkPost v (post_title created) (post_body created) (post_userId created).

(** [{ ...album, thumbnailUrl: t }] *)
Definition album_with_thumbnail (album : Album) (t : option jsstring) : Album :=
  mkAlbum (album_id album) (album_title album) (album_userId album) t.

(* ------------------------------------------------------------------ *)
(** ** Component state                                                  *)
(* ------------------------------------------------------------------ *)

(** One field per [useState] cell of [App], in the order of the source.
    [avatarPreview] starts as [""] and can become [null] in [startEdit];
    [fileInputValue] is the [value] of the file input behind
    [fileInputRef]; the input is rendered unconditionally, so the ref is
    attached whenever a handler runs. *)
Record State : Set := mkState {
  users : list User;
  selectedUser : option User;
  posts : list Post;
  loadingUsers : bool;
  loadingPosts : bool;
  error : jsstring;
  name : jsstring;
  email : jsstring;
  avatarPreview : option jsstring;
  avatarFile : option File;
  editId : option Id;
  formLoading : bool;
  isDragging : bool;
  showPostForm : bool;
  postTitle : jsstring;
  postBody : jsstring;
  postLoading : bool;
  albums : list Album;
  loadingAlbums : bool;
  activeTab : Tab;
  darkMode : bool;
  fileInputValue : jsstring
}.

(** The setters [setUsers], [setError], ... given by [useState]. *)
Definition setUsers (v : list User) (s : State) : State :=
  mkState v (selectedUser s) (posts s) (loadingUsers s) (loadingPosts s)
    (error s) (name s) (email s) (avatarPreview s) (avatarFile s) (editId s)
    (formLoading s) (isDragging s) (showPostForm s) (postTitle s)
    (postBody s) (postLoading s) (albums s) (loadingAlbums s) (activeTab s)
    (darkMode s) (fileInputValue s).
Definition setSelectedUser (v : option User) (s : State) : State :=
  mkState (users s) v (posts s) (loadingUsers s) (loadingPosts s) (error s)
    (name s) (email s) (avatarPreview s) (avatarFile s) (editId s)
    (formLoading s) (isDragging s) (showPostForm s) (postTitle s)
    (postBody s) (postLoading s) (albums s) (loadingAlbums s) (activeTab s)
    (darkMode s) (fileInputValue s).
Definition setPosts (v : list Post) (s : State) : State :=
  mkState (users s) (selectedUser s) v (loadingUsers s) (loadingPosts s)
    (error s) (name s) (email s) (avatarPreview s) (avatarFile s) (editId s)
    (formLoading s) (isDragging s) (showPostForm s) (postTitle s)
    (postBody s) (postLoading s) (albums s) (loadingAlbums s) (activeTab s)
    (darkMode s) (fileInputValue s).
Definition setLoadingUsers (v : bool) (s : State) : State :=
  mkState (users s) (selectedUser s) (posts s) v (loadingPosts s) (error s)
    (name s) (email s) (avatarPreview s) (avatarFile s) (editId s)
    (formLoading s) (isDragging s) (showPostForm s) (postTitle s)
    (postBody s) (postLoading s) (albums s) (loadingAlbums s) (activeTab s)
    (darkMode s) (fileInputValue s).
Definition setLoadingPosts (v : bool) (s : State) : State :=
  mkState (users s) (selectedUser s) (posts s) (loadingUsers s) v (error s)
    (name s) (email s) (avatarPreview s) (avatarFile s) (editId s)
    (formLoading s) (isDragging s) (showPostForm s) (postTitle s)
    (postBody s) (postLoading s) (albums s) (loadingAlbums s) (activeTab s)
    (darkMode s) (fileInputValue s).
Definition setError (v : jsstring) (s : State) : State :=
  mkState (users s) (selectedUser s) (posts s) (loadingUsers s)
    (loadingPosts s) v (name s) (email s) (avatarPreview s) (avatarFile s)
    (editId s) (formLoading s) (isDragging s) (showPostForm s) (postTitle s)
    (postBody s) (postLoading s) (albums s) (loadingAlbums s) (activeTab s)
    (darkMode s) (fileInputValue s).
Definition setName (v : jsstring) (s : State) : State :=
  mkState (users s) (selectedUser s) (posts s) (loadingUsers s)
    (loadingPosts s) (error s) v (email s) (avatarPreview s) (avatarFile s)
    (editId s) (formLoading s) (isDragging s) (showPostForm s) (postTitle s)
    (postBody s) (postLoading s) (albums s) (loadingAlbums s) (activeTab s)
    (darkMode s) (fileInputValue s).
Definition setEmail (v : jsstring) (s : State) : State :=
  mkState (users s) (selectedUser s) (posts s) (loadingUsers s)
    (loadingPosts s) (error s) (name s) v (avatarPreview s) (avatarFile s)
    (editId s) (formLoading s) (isDragging s) (showPostForm s) (postTitle s)
    (postBody s) (postLoading s) (albums s) (loadingAlbums s) (activeTab s)
    (darkMode s) (fileInputValue s).
Definition setAvatarPreview (v : option jsstring) (s : State) : State :=
  mkState (users s) (selectedUser s) (posts s) (loadingUsers s)
    (loadingPosts s) (error s) (name s) (email s) v (avatarFile s)
    (editId s) (formLoading s) (isDragging s) (showPostForm s) (postTitle s)
    (postBody s) (postLoading s) (albums s) (loadingAlbums s) (activeTab s)
    (darkMode s) (fileInputValue s).
Definition setAvatarFile (v : option File) (s : State) : State :=
  mkState (users s) (selectedUser s) (posts s) (loadingUsers s)
    (loadingPosts s) (error s) (name s) (email s) (avatarPreview s) v
    (editId s) (formLoading s) (isDragging s) (showPostForm s) (postTitle s)
    (postBody s) (postLoading s) (albums s) (loadingAlbums s) (activeTab s)
    (darkMode s) (fileInputValue s).
Definition setEditId (v : option Id) (s : State) : State :=
  mkState (users s) (selectedUser s) (posts s) (loadingUsers s)
    (loadingPosts s) (error s) (name s) (email s) (avatarPreview s)
    (avatarFile s) v (formLoading s) (isDragging s) (showPostForm s)
    (postTitle s) (postBody s) (postLoading s) (albums s) (loadingAlbums s)
    (activeTab s) (darkMode s) (fileInputValue s).
Definition setFormLoading (v : bool) (s : State) : State :=
  mkState (users s) (selectedUser s) (posts s) (loadingUsers s)
    (loadingPosts s) (error s) (name s) (email s) (avatarPreview s)
    (avatarFile s) (editId s) v (isDragging s) (showPostForm s)
    (postTitle s) (postBody s) (postLoading s) (albums s) (loadingAlbums s)
    (activeTab s) (darkMode s) (fileInputValue s).
Definition setIsDragging (v : bool) (s : State) : State :=
  mkState (users s) (selectedUser s) (posts s) (loadingUsers s)
    (loadingPosts s) (error s) (name s) (email s) (avatarPreview s)
    (avatarFile s) (editId s) (formLoading s) v (showPostForm s)
    (postTitle s) (postBody s) (postLoading s) (albums s) (loadingAlbums s)
    (activeTab s) (darkMode s) (fileInputValue s).
Definition setShowPostForm (v : bool) (s : State) : State :=
  mkState (users s) (selectedUser s) (posts s) (loadingUsers s)
    (loadingPosts s) (error s) (name s) (email s) (avatarPreview s)
    (avatarFile s) (editId s) (formLoading s) (isDragging s) v (postTitle s)
    (postBody s) (postLoading s) (albums s) (loadingAlbums s) (activeTab s)
    (darkMode s) (fileInputValue s).
Definition setPostTitle (v : jsstring) (s : State) : State :=
  mkState (users s) (selectedUser s) (posts s) (loadingUsers s)
    (loadingPosts s) (error s) (name s) (email s) (avatarPreview s)
    (avatarFile s) (editId s) (formLoading s) (isDragging s)
    (showPostForm s) v (postBody s) (postLoading s) (albums s)
    (loadingAlbums s) (activeTab s) (darkMode s) (fileInputValue s).
Definition setPostBody (v : jsstring) (s : State) : State :=
  mkState (users s) (selectedUser s) (posts s) (loadingUsers s)
    (loadingPosts s) (error s) (name s) (email s) (avatarPreview s)
    (avatarFile s) (editId s) (formLoading s) (isDragging s)
    (showPostForm s) (postTitle s) v (postLoading s) (albums s)
    (loadingAlbums s) (activeTab s) (darkMode s) (fileInputValue s).
Definition setPostLoading (v : bool) (s : State) : State :=
  mkState (users s) (selectedUser s) (posts s) (loadingUsers s)
    (loadingPosts s) (error s) (name s) (email s) (avatarPreview s)
    (avatarFile s) (editId s) (formLoading s) (isDragging s)
    (showPostForm s) (postTitle s) (postBody s) v (albums s)
    (loadingAlbums s) (activeTab s) (darkMode s) (fileInputValue s).
Definition setAlbums (v : list Album) (s : State) : State :=
  mkState (users s) (selectedUser s) (posts s) (loadingUsers s)
    (loadingPosts s) (error s) (name s) (email s) (avatarPreview s)
    (avatarFile s) (editId s) (formLoading s) (isDragging s)
    (showPostForm s) (postTitle s) (postBody s) (postLoading s) v
    (loadingAlbums s) (activeTab s) (darkMode s) (fileInputValue s).
Definition setLoadingAlbums (v : bool) (s : State) : State :=
  mkState (users s) (selectedUser s) (posts s) (loadingUsers s)
    (loadingPosts s) (error s) (name s) (email s) (avatarPreview s)
    (avatarFile s) (editId s) (formLoading s) (isDragging s)
    (showPostForm s) (postTitle s) (postBody s) (postLoading s) (albums s) v
    (activeTab s) (darkMode s) (fileInputValue s).
Definition setActiveTab (v : Tab) (s : State) : State :=
  mkState (users s) (selectedUser s) (posts s) (loadingUsers s)
    (loadingPosts s) (error s) (name s) (email s) (avatarPreview s)
    (avatarFile s) (editId s) (formLoading s) (isDragging s)
    (showPostForm s) (postTitle s) (postBody s) (postLoading s) (albums s)
    (loadingAlbums s) v (darkMode s) (fileInputValue s).
Definition setDarkMode (v : bool) (s : State) : State :=
  mkState (users s) (selectedUser s) (posts s) (loadingUsers s)
    (loadingPosts s) (error s) (name s) (email s) (avatarPreview s)
    (avatarFile s) (editId s) (formLoading s) (isDragging s)
    (showPostForm s) (postTitle s) (postBody s) (postLoading s) (albums s)
    (loadingAlbums s) (activeTab s) v (fileInputValue s).
Definition setFileInputValue (v : jsstring) (s : State) : State :=
  mkState (users s) (selectedUser s) (posts s) (loadingUsers s)
    (loadingPosts s) (error s) (name s) (email s) (avatarPreview s)
    (avatarFile s) (editId s) (formLoading s) (isDragging s)
    (showPostForm s) (postTitle s) (postBody s) (postLoading s) (albums s)
    (loadingAlbums s) (activeTab s) (darkMode s) v.

(* ------------------------------------------------------------------ *)
(** ** What a handler can do                                            *)
(* ------------------------------------------------------------------ *)

(** Exceptions the handlers throw or receive. *)
Inductive Err : Set :=
| Error (message : jsstring)   (* [throw new Error(message)] *)
| NetworkError                 (* a rejected [fetch] *)
| SyntaxError                  (* a rejected [res.json()] *)
| TypeError                    (* a property read on [null] *)
| URIError.                    (* [encodeURIComponent] on a lone surrogate *)

(** What [await fetch(...)] resolves to, as far as the handlers look at
    it: [res.ok] and the value of [res.json()], [None] when the body does
    not parse. *)
Record Response (X : Set) : Set := mkResponse {
  ok : bool;
  body : option X
}.

(** The outcome of a [fetch]: [None] when the promise rejects. *)
Definition Fetched (X : Set) : Set := option (Response X).

(** Asynchronous requests, indexed by what they answer.  The four
    endpoints [USERS_API], [POSTS_API], [ALBUMS_API] and [PHOTOS_API] with
    the verb, path and query of each call site, and the [FileReader]. *)
Inductive Req : Set -> Type :=
| GetUsers : Req (Fetched (list User))
| PutUser (id : Id) (payload : User) : Req (Fetched User)
| PostUser (newUser : User) : Req (Fetched User)
| DeleteUser (id : Id) : Req (Fetched unit)
| GetPosts (userId : Id) : Req (Fetched (list Post))
| PostPost (newPost : NewPost) : Req (Fetched Post)
| GetAlbums (userId : Id) : Req (Fetched (list Album))
| GetPhotos (albumId : Id) (_limit : N) : Req (Fetched (list Photo))
| ReadAsDataURL (file : File) : Req (option jsstring).

(** Synchronous services of the browser. *)
Inductive Sys : Set -> Type :=
| DateNow : Sys Z
| DateToISOString : Sys jsstring
| WindowConfirm (message : jsstring) : Sys bool
| ConsoleError (err : Err) : Sys unit
| LocalStorageSetItem (key value : jsstring) : Sys unit.

(** Library functions of the platform that the embedding does not
    unfold: Unicode lower-casing, and percent-encoding, which throws on
    a lone surrogate ([None]). *)
Class Platform : Set := {
  toLowerCase : jsstring -> jsstring;
  encodeURIComponent : jsstring -> option jsstring
}.

(** Handler programs.  [Upd f] queues the update [f] ([setX(v)] is
    [Upd (setX v)], [setX(prev => e)] reads the state it is applied to);
    [Read] looks at the live state, as the body of an updater does;
    [Call] is a synchronous call; [Await] suspends the handler until the
    request is answered; [AwaitAll] issues all its requests at once and
    resumes when all are answered. *)
Inductive Proc (A : Type) : Type :=
| Ret (a : A)
| Throw (e : Err)
| Upd (f : State -> State) (k : Proc A)
| Read (k : State -> Proc A)
| Call (X : Set) (c : Sys X) (k : X -> Proc A)
| Await (X : Set) (r : Req X) (k : X -> Proc A)
| AwaitAll (X : Set) (rs : list (Req X)) (k : list X -> Proc A).

Arguments Ret {A} a.
Arguments Throw {A} e.
Arguments Upd {A} f k.
Arguments Read {A} k.
Arguments Call {A X} c k.
Arguments Await {A X} r k.
Arguments AwaitAll {A X} rs k.

Fixpoint bind {A B : Type} (p : Proc A) (f : A -> Proc B) : Proc B :=
  match p with
  | Ret a => f a
  | Throw e => Throw e
  | Upd g k => Upd g (bind k f)
  | Read k => Read (fun st => bind (k st) f)
  | Call c k => Call c (fun x => bind (k x) f)
  | Await r k => Await r (fun x => bind (k x) f)
  | AwaitAll rs k => AwaitAll rs (fun xs => bind (k xs) f)
  end.

(** [try { p } catch (err) { h err }] *)
Fixpoint try_catch {A : Type} (p : Proc A) (h : Err -> Proc A) : Proc A :=
  match p with
  | Ret a => Ret a
  | Throw e => h e
  | Upd g k => Upd g (try_catch k h)
  | Read k => Read (fun st => try_catch (k st) h)
  | Call c k => Call c (fun x => try_catch (k x) h)
  | Await r k => Await r (fun x => try_catch (k x) h)
  | AwaitAll rs k => AwaitAll rs (fun xs => try_catch (k xs) h)
  end.

(** [try { p } finally { q }] *)
Fixpoint finally {A : Type} (p : Proc A) (q : Proc unit) : Proc A :=
  match p with
  | Ret a => bind q (fun _ => Ret a)
  | Throw e => bind q (fun _ => Throw e)
  | Upd g k => Upd g (finally k q)
  | Read k => Read (fun st => finally (k st) q)
  | Call c k => Call c (fun x => finally (k x) q)
  | Await r k => Await r (fun x => finally (k x) q)
  | AwaitAll rs k => AwaitAll rs (fun xs => finally (k xs) q)
  end.

Declare Scope proc_scope.
Delimit Scope proc_scope with proc.
Bind Scope proc_scope with Proc.
Notation "x <- p ;; q" := (bind p (fun x => q))
  (at level 61, p at next level, right associativity) : proc_scope.
Notation "p ;; q" := (bind p (fun _ => q))
  (at level 61, right associativity) : proc_scope.
Open Scope proc_scope.

(** [setX(v);] as a statement. *)
Definition set (f : State -> State) : Proc unit := Upd f (Ret tt).

(** [throw e;] *)
Definition throw (e : Err) : Proc unit := Throw e.

(** [await fetch(...)] *)
Definition fetched {X : Set} (a : Fetched X) : Proc (Response X) :=
  match a with
  | Some res => Ret res
  | None => Throw NetworkError
  end.

Definition fetch {X : Set} (r : Req (Fetched X)) : Proc (Response X) :=
  Await r fetched.

(** [await res.json()] *)
Definition json {X : Set} (res : Response X) : Proc X :=
  match body res with
  | Some v => Ret v
  | None => Throw SyntaxError
  end.

(** [console.error(err);] *)
Definition console_error (err : Err) : Proc unit :=
  Call (ConsoleError err) (fun _ => Ret tt).

(** Statements in sequence, stopping at the first that throws. *)
Fixpoint mapM {X Y : Type} (f : X -> Proc Y) (xs : list X) : Proc (list Y) :=
  match xs with
  | [] => Ret []
  | x :: xs' => y <- f x ;; ys <- mapM f xs' ;; Ret (y :: ys)
  end.

(** [await Promise.all(xs.map(async (x) => { const y = await req(x); k }))]
    for a callback that awaits once and then only computes.  Every
    callback runs up to its [await] when [map] calls it, so all requests
    are issued, in the order of [xs], before any answer is looked at; the
    promise fulfils with the results in that order and rejects when a
    callback throws. *)
Definition Promise_all_map {X Z : Type} {Y : Set}
    (xs : list X) (req : X -> Req Y) (k : X -> Y -> Proc Z) : Proc (list Z) :=
  AwaitAll (map req xs)
    (fun ys => mapM (fun xy => k (fst xy) (snd xy)) (combine xs ys)).

(* ------------------------------------------------------------------ *)
(** ** The handlers of [App]                                            *)
(* ------------------------------------------------------------------ *)

Section Handlers.

Context {platform : Platform}.

Definition MAX_AVATAR_BYTES : N := 5 * 1024 * 1024.

(** [!s.trim()] *)
Definition missing (s : jsstring) : bool := negb (truthy (trim s)).

(* ---- Avatar helpers ---- *)

Definition generateAvatarUrl (name : option jsstring)
    : Proc (option jsstring) :=
  match name with
  | None => Ret None
  | Some nm =>
      if missing nm then Ret None
      else
        match encodeURIComponent (trim nm) with
        | None => Throw URIError
        | Some encoded =>
            Ret (Some (lit "https://ui-avatars.com/api/?name=" ++ encoded
                       ++ lit "&size=128&background=random&bold=true&format=png"))
        end
  end.

Definition processFile (file : option File) : Proc unit :=
  match file with
  | None => Ret tt
  | Some f =>
      if negb (startsWith (file_type f) (lit "image/")) then
        set (setError (lit "Please select a valid image."))
      else if (MAX_AVATAR_BYTES <? file_size f)%N then
        set (setError (lit "Image must be < 5 MB."))
      else
        Await (ReadAsDataURL f) (fun loaded =>
          match loaded with
          | Some result =>            (* reader.onload *)
              set (setAvatarPreview (Some result)) ;;
              set (setAvatarFile (Some f)) ;;
              set (setError (lit ""))
          | None =>                   (* reader.onerror *)
              set (setError (lit "Failed to read file."))
          end)
  end.

(* ---- Dark mode toggle ---- *)

(** [setDarkMode((prev) => { ... })]: the updater reads the live value. *)
Definition toggleDarkMode : Proc unit :=
  Read (fun st =>
    let newMode := negb (darkMode st) in
    Call (LocalStorageSetItem (lit "darkMode")
            (if newMode then lit "true" else lit "false"))
         (fun _ => set (setDarkMode newMode))).

(* ---- API calls ---- *)

Definition loadUsers : Proc unit :=
  set (setLoadingUsers true) ;;
  set (setError (lit "")) ;;
  finally
    (try_catch
       (res <- fetch GetUsers ;;
        (if negb (ok res) then throw (Error (lit "Failed to fetch users"))
         else Ret tt) ;;
        data <- json res ;;
        set (setUsers (firstn 9 data)))
       (fun err =>
          set (setError (lit "Failed to load users.")) ;;
          console_error err))
    (set (setLoadingUsers false)).

Definition loadPosts (userId : Id) : Proc unit :=
  set (setLoadingPosts true) ;;
  set (setError (lit "")) ;;
  finally
    (try_catch
       (res <- fetch (GetPosts userId) ;;
        (if negb (ok res) then throw (Error (lit "Failed to fetch posts"))
         else Ret tt) ;;
        data <- json res ;;
        set (setPosts data))
       (fun err =>
          set (setError (lit "Failed to load posts.")) ;;
          console_error err))
    (set (setLoadingPosts false)).

(** [photos[0]?.thumbnailUrl || null] *)
Definition firstThumbnail (photos : list Photo) : option jsstring :=
  or_else (match photos with
           | p :: _ => photo_thumbnailUrl p
           | [] => None
           end) None.

(** The callback of [albumsData.map] after its [await fetch(...)]. *)
Definition withThumb (album : Album) (answer : Fetched (list Photo))
    : Proc Album :=
  photoRes <- fetched answer ;;
  photos <- json photoRes ;;
  Ret (album_with_thumbnail album (firstThumbnail photos)).

Definition loadAlbums (userId : Id) : Proc unit :=
  set (setLoadingAlbums true) ;;
  set (setError (lit "")) ;;
  finally
    (try_catch
       (res <- fetch (GetAlbums userId) ;;
        (if negb (ok res) then throw (Error (lit "Failed to fetch albums"))
         else Ret tt) ;;
        albumsData <- json res ;;
        albumsWithThumb <-
          Promise_all_map albumsData
            (fun album => GetPhotos (album_id album) 1) withThumb ;;
        set (setAlbums albumsWithThumb))
       (fun err =>
          set (setError (lit "Failed to load albums.")) ;;
          console_error err))
    (set (setLoadingAlbums false)).

(** [selectedUser.id], a [TypeError] when no user is selected. *)
Definition selectedUser_id (s : State) : Proc Id :=
  match selectedUser s with
  | Some u => Ret (user_id u)
  | None => Throw TypeError
  end.

Definition createPost (s : State) : Proc unit :=
  if missing (postTitle s) || missing (postBody s) then
    set (setError (lit "Title and body are required"))
  else
    set (setPostLoading true) ;;
    userId <- selectedUser_id s ;;
    let newPost := mkNewPost (trim (postTitle s)) (trim (postBody s)) userId in
    finally
      (try_catch
         (res <- fetch (PostPost newPost) ;;
          (if negb (ok res) then throw (Error (lit "Failed to create post"))
           else Ret tt) ;;
          created <- json res ;;
          Call DateNow (fun now =>
            set (fun st =>
                   setPosts (post_with_id created (IdNum now) :: posts st) st)) ;;
          set (setPostTitle (lit "")) ;;
          set (setPostBody (lit "")) ;;
          set (setShowPostForm false) ;;
          set (setError (lit "")))
         (fun err =>
            set (setError (lit "Failed to create post.")) ;;
            console_error err))
      (set (setPostLoading false)).

(* ---- Modal helpers ---- *)

Definition openUserPosts (user : User) : Proc unit :=
  set (setSelectedUser (Some user)) ;;
  set (setPosts []) ;;
  set (setAlbums []) ;;
  set (setShowPostForm false) ;;
  set (setActiveTab TabPosts) ;;
  loadPosts (user_id user).

Definition closePosts : Proc unit :=
  set (setSelectedUser None) ;;
  set (setPosts []) ;;
  set (setAlbums []) ;;
  set (setShowPostForm false).

(* ---- Drag and drop ---- *)

Definition handleFileChange (file : option File) : Proc unit :=
  processFile file.

Definition handleDrop (file : option File) : Proc unit :=
  set (setIsDragging false) ;;
  processFile file.

Definition handleDragOver : Proc unit := set (setIsDragging true).

(** [inside] is [dropZoneRef.current?.contains(e.relatedTarget)]. *)
Definition handleDragLeave (inside : bool) : Proc unit :=
  if negb inside then set (setIsDragging false) else Ret tt.

(* ---- Form submit (create / update) ---- *)

Definition resetForm : Proc unit :=
  set (setName (lit "")) ;;
  set (setEmail (lit "")) ;;
  set (setAvatarPreview (Some (lit ""))) ;;
  set (setAvatarFile None) ;;
  set (setEditId None) ;;
  set (setError (lit "")) ;;
  set (setFileInputValue (lit "")).

(** The truthy value of [editId], if it has one. *)
Definition editing (s : State) : option Id :=
  match editId s with
  | Some i => if truthy_id i then Some i else None
  | None => None
  end.

Definition handleSubmit (s : State) : Proc unit :=
  if missing (name s) || missing (email s) then
    set (setError (lit "Name and email required"))
  else
    set (setFormLoading true) ;;
    avatarUrlForApi <-
      (if truthy_opt (avatarPreview s) then Ret (avatarPreview s)
       else generateAvatarUrl (Some (trim (name s)))) ;;
    id <- match editing s with
          | Some i => Ret i
          | None => Call DateNow (fun now => Ret (IdNum now))
          end ;;
    let payload :=
      mkUser id (trim (name s)) (trim (email s)) avatarUrlForApi
             None None None None in
    finally
      (try_catch
         (match editing s with
          | Some i =>
              res <- fetch (PutUser i payload) ;;
              (if negb (ok res) then throw (Error (lit "Failed to update user"))
               else Ret tt) ;;
              updated <- json res ;;
              set (fun st =>
                     setUsers
                       (map (fun u => if strict_eq (user_id u) i
                                      then updated else u) (users st)) st)
          | None =>
              Call DateToISOString (fun createdAt =>
                let newUser :=
                  mkUser id (trim (name s)) (trim (email s)) avatarUrlForApi
                         (Some (stripWhiteSpace (toLowerCase (trim (name s)))))
                         (Some (lit "Unknown")) (Some (lit "Unknown"))
                         (Some createdAt) in
                res <- fetch (PostUser newUser) ;;
                (if negb (ok res)
                 then throw (Error (lit "Failed to create user"))
                 else Ret tt) ;;
                created <- json res ;;
                set (fun st => setUsers (created :: users st) st))
          end ;;
          resetForm)
         (fun err =>
            set (setError (lit "Operation failed.")) ;;
            console_error err))
      (set (setFormLoading false)).

Definition startEdit (user : User) : Proc unit :=
  set (setEditId (Some (user_id user))) ;;
  set (setName (user_name user)) ;;
  set (setEmail (user_email user)) ;;
  preview <-
    (if truthy_opt (user_avatar user) then Ret (user_avatar user)
     else generateAvatarUrl (Some (user_name user))) ;;
  set (setAvatarPreview preview) ;;
  set (setAvatarFile None).

Definition cancelEdit : Proc unit := resetForm.

Definition handleDelete (id : Id) : Proc unit :=
  Call (WindowConfirm (lit "Delete this user?")) (fun confirmed =>
    if negb confirmed then Ret tt
    else
      set (setFormLoading true) ;;
      finally
        (try_catch
           (_ <- fetch (DeleteUser id) ;;
            set (fun st =>
                   setUsers
                     (filter (fun u => negb (strict_eq (user_id u) id))
                             (users st)) st))
           (fun err =>
              set (setError (lit "Delete failed.")) ;;
              console_error err))
        (set (setFormLoading false))).

(* ---- Handlers written inline in the markup ---- *)

(** The Posts tab button. *)
Definition selectPostsTab (s : State) : Proc unit :=
  set (setActiveTab TabPosts) ;;
  match posts s with
  | [] => userId <- selectedUser_id s ;; loadPosts userId
  | _ :: _ => Ret tt
  end.

(** The Albums tab button. *)
Definition selectAlbumsTab (s : State) : Proc unit :=
  set (setActiveTab TabAlbums) ;;
  match albums s with
  | [] => userId <- selectedUser_id s ;; loadAlbums userId
  | _ :: _ => Ret tt
  end.

(** The [Add New Post] button. *)
Definition showNewPostForm : Proc unit := set (setShowPostForm true).

(** The [Cancel] button of the post form. *)
Definition cancelPostForm : Proc unit :=
  set (setShowPostForm false) ;;
  set (setPostTitle (lit "")) ;;
  set (setPostBody (lit "")).

(** The [Remove] button under the avatar preview. *)
Definition removeAvatar : Proc unit :=
  set (setAvatarPreview (Some (lit ""))) ;;
  set (setAvatarFile None) ;;
  set (setFileInputValue (lit "")).

(** What the user can do to the page, and the handler each action
    runs, given the render [s] the handler was created in. *)
Inductive UIEvent : Set :=
| Mount
| ToggleDarkMode
| ChangeName (value : jsstring)
| ChangeEmail (value : jsstring)
| ChooseFile (file : option File)
| DropFile (file : option File)
| DragOver
| DragLeave (inside : bool)
| RemoveAvatar
| SubmitUserForm
| CancelEdit
| ClickPosts (user : User)
| ClickEdit (user : User)
| ClickDelete (id : Id)
| CloseModal
| SelectPostsTab
| SelectAlbumsTab
| AddNewPost
| ChangePostTitle (value : jsstring)
| ChangePostBody (value : jsstring)
| SubmitPostForm
| CancelPostForm.

Definition handler (ev : UIEvent) (s : State) : Proc unit :=
  match ev with
  | Mount => loadUsers
  | ToggleDarkMode => toggleDarkMode
  | ChangeName v => set (setName v)
  | ChangeEmail v => set (setEmail v)
  | ChooseFile f => handleFileChange f
  | DropFile f => handleDrop f
  | DragOver => handleDragOver
| DragLeave inside => handleDragLeave inside
  | RemoveAvatar => removeAvatar
  | SubmitUserForm => handleSubmit s
  | CancelEdit => cancelEdit
  | ClickPosts u => openUserPosts u
  | ClickEdit u => startEdit u
  | ClickDelete id => handleDelete id
  | CloseModal => closePosts
  | SelectPostsTab => selectPostsTab s
  | SelectAlbumsTab => selectAlbumsTab s
  | AddNewPost => showNewPostForm
  | ChangePostTitle v => set (setPostTitle v)
  | ChangePostBody v => set (setPostBody v)
  | SubmitPostForm => createPost s
  | CancelPostForm => cancelPostForm
  end.

End Handlers.

(* ------------------------------------------------------------------ *)
(** ** Running handlers                                                 *)
(* ------------------------------------------------------------------ *)

(** The world outside the handler: what the [k]-th operation of a run is
    answered, and what the rest of the page (other handlers still in
    flight) does to the state while the handler is suspended at its
    [k]-th operation. *)
Record World : Type := mkWorld {
  answer : forall X : Set, nat -> Req X -> X;
  reply : forall X : Set, nat -> Sys X -> X;
  meanwhile : nat -> State -> State
}.

(** A world in which nothing else touches the state: handlers run to
    completion one after another. *)
Definition quiet (w : World) : Prop :=
  forall k s, meanwhile w k s = s.

(** What a run leaves behind: the synchronous calls it made and, for
    every suspension, the state when the handler suspends, the requests
    in flight and the state when it resumes. *)
Inductive Entry : Type :=
| Called (X : Set) (c : Sys X)
| Suspended (before : State) (X : Set) (rs : list (Req X)) (after : State).

Arguments Called {X} c.
Arguments Suspended before {X} rs after.

Inductive Completion (A : Type) : Type :=
| Normal (a : A)
| Uncaught (e : Err).

Arguments Normal {A} a.
Arguments Uncaught {A} e.

Record Outcome (A : Type) : Type := mkOutcome {
  completion : Completion A;
  final : State;
  trace : list Entry;
  next : nat
}.

Definition logged {A : Type} (e : Entry) (o : Outcome A) : Outcome A :=
  mkOutcome (completion o) (final o) (e :: trace o) (next o).

Fixpoint answers (w : World) (X : Set) (n : nat) (rs : list (Req X)) : list X :=
  match rs with
  | [] => []
  | r :: rs' => answer w n r :: answers w (S n) rs'
  end.

Fixpoint run {A : Type} (w : World) (p : Proc A) (n : nat) (s : State)
    : Outcome A :=
  match p with
  | Ret a => mkOutcome (Normal a) s [] n
  | Throw e => mkOutcome (Uncaught e) s [] n
  | Upd f k => run w k n (f s)
  | Read k => run w (k s) n s
  | Call c k => logged (Called c) (run w (k (reply w n c)) (S n) s)
  | Await r k =>
      logged (Suspended s [r] (meanwhile w n s))
             (run w (k (answer w n r)) (S n) (meanwhile w n s))
  | AwaitAll rs k =>
      logged (Suspended s rs (meanwhile w n s))
             (run w (k (answers w n rs)) (n + length rs) (meanwhile w n s))
  end.

(** A sequence of user actions, each handler created in the render of
    the state its predecessor left and run to completion.  An uncaught
    exception ends its handler, not the page. *)
Fixpoint session {platform : Platform} (w : World) (evs : list UIEvent)
    (n : nat) (s : State) : Outcome unit :=
  match evs with
  | [] => mkOutcome (Normal tt) s [] n
  | ev :: evs' =>
      let o := run w (handler ev s) n s in
      let o' := session w evs' (next o) (final o) in
      mkOutcome (completion o') (final o') (trace o ++ trace o') (next o')
  end.

(** Counting the requests of a trace. *)
Definition isGetAlbums (X : Set) (r : Req X) : bool :=
  match r with GetAlbums _ => true | _ => false end.

Definition isGetPhotos (X : Set) (r : Req X) : bool :=
  match r with GetPhotos _ _ => true | _ => false end.

Definition requestsWhere (p : forall X : Set, Req X -> bool) (e : Entry) : nat :=
  match e with
  | Called _ => 0
  | Suspended _ rs _ => List.length (filter (p _) rs)
  end.

Definition countRequests (p : forall X : Set, Req X -> bool) (tr : list Entry)
    : nat :=
  list_sum (map (requestsWhere p) tr).

(** The number of calls of the albums endpoint, one per [loadAlbums]. *)
Definition albumFetches (tr : list Entry) : nat := countRequests isGetAlbums tr.

(** The states the page goes through while a run is suspended. *)
Definition screens (tr : list Entry) : list State :=
  flat_map (fun e => match e with
                     | Called _ => []
                     | Suspended before _ after => [before; after]
                     end) tr.

(** What the callback of [loadAlbums] reads from the answer to its photo
    request, [None] when its [fetch] or its [json()] rejects. *)
Definition photosIn (a : Fetched (list Photo)) : option (list Photo) :=
  match a with
  | Some res => body res
  | None => None
  end.

(** The actions offered while the modal stays open for one user: all but
    opening the posts of a user and closing the modal. *)
Definition inModal (ev : UIEvent) : bool :=
  match ev with
  | ClickPosts _ | CloseModal => false
  | _ => true
  end.

Definition isSelectAlbumsTab (ev : UIEvent) : bool :=
  match ev with SelectAlbumsTab => true | _ => false end.

(** Programs all of whose updates satisfy [U] and all of whose requests
    fall outside [R]. *)
Inductive Tame (U : (State -> State) -> Prop)
    (R : forall X : Set, Req X -> bool) (A : Type) : Proc A -> Prop :=
| Tame_Ret (a : A) : Tame U R (Ret a)
| Tame_Throw (e : Err) : Tame U R (Throw e)
| Tame_Upd (f : State -> State) (k : Proc A) :
    U f -> Tame U R k -> Tame U R (Upd f k)
| Tame_Read (k : State -> Proc A) :
    (forall st, Tame U R (k st)) -> Tame U R (Read k)
| Tame_Call (X : Set) (c : Sys X) (k : X -> Proc A) :
    (forall x, Tame U R (k x)) -> Tame U R (Call c k)
| Tame_Await (X : Set) (r : Req X) (k : X -> Proc A) :
    R X r = false -> (forall x, Tame U R (k x)) -> Tame U R (Await r k)
| Tame_AwaitAll (X : Set) (rs : list (Req X)) (k : list X -> Proc A) :
    filter (R X) rs = [] -> (forall xs, Tame U R (k xs)) ->
    Tame U R (AwaitAll rs k).

(** The course of a load as the page shows it: the error is empty when
    the load first suspends, [flag] is set for as long as it is suspended
    and cleared when it has completed. *)
Definition loadingDiscipline (flag : State -> bool) (o : Outcome unit) : Prop :=
  (exists s1 rest, screens (trace o) = s1 :: rest /\ error s1 = lit "")
  /\ Forall (fun st => flag st = true) (screens (trace o))
  /\ flag (final o) = false.

(** What a load does to the page whatever else happens: the error is
    empty and [flag] is set when the load first suspends, and [flag] is
    cleared when the load has completed. *)
Definition loadingBrackets (flag : State -> bool) (o : Outcome unit) : Prop :=
  (exists s1 rest,
      screens (trace o) = s1 :: rest /\ error s1 = lit "" /\ flag s1 = true)
  /\ flag (final o) = false.

(** Updates that leave the albums list and the selected user alone. *)
Definition keepsAlbums (f : State -> State) : Prop :=
  forall s, albums (f s) = albums s /\ selectedUser (f s) = selectedUser s.

(* ------------------------------------------------------------------ *)
(** ** What the page shows                                              *)
(* ------------------------------------------------------------------ *)

(** The modal is rendered when a user is selected; the post form is
    rendered inside it on the Posts tab when [showPostForm] is set, and
    its two fields show [postTitle] and [postBody]. *)
Definition postFormShown (s : State) : option (jsstring * jsstring) :=
  match selectedUser s, activeTab s with
  | Some _, TabPosts =>
      if showPostForm s then Some (postTitle s, postBody s) else None
  | _, _ => None
  end.

(** The initial render. *)
Definition initialState (dark : bool) : State :=
  mkState [] None [] false false (lit "") (lit "") (lit "") (Some (lit ""))
          None None false false false (lit "") (lit "") false [] false
          TabPosts dark (lit "").

(* ------------------------------------------------------------------ *)
(** ** The avatar                                                       *)
(* ------------------------------------------------------------------ *)

(** [String.prototype.toUpperCase], left to the platform like
    [toLowerCase]. *)
Class Casing : Set := {
  toUpperCase : jsstring -> jsstring
}.

(** [s.charAt(0)] *)
Definition charAt0 (s : jsstring) : jsstring :=
  match s with
  | [] => []
  | c :: _ => [c]
  end.

(** The result of [generateLetterAvatar]: the letter, and the colours
    [hsl(hue, s%, l%)] of [bg] and [color] as their hue and their
    saturation and lightness.  The hue is [None] when it is [NaN]. *)
Record LetterAvatar : Set := mkLetterAvatar {
  la_letter : jsstring;
  la_hue : option N;
  la_bg : N * N;
  la_color : N * N
}.

(** What [Avatar] puts inside its circle. *)
Inductive AvatarContent : Set :=
| SavedImage (src onErrorSrc : jsstring)
| GeneratedImage (src : jsstring)
| Letter (letter : jsstring).

(** The [background] of the circle ([None] for ["transparent"]) and its
    content. *)
Record AvatarView : Set := mkAvatarView {
  av_background : option (option N * (N * N));
  av_content : AvatarContent
}.

(** A value that is [null], [undefined] or a whitespace-only string. *)
Definition absent (x : option jsstring) : bool :=
  match x with
  | Some v => blank v
  | None => true
  end.

Section AvatarComponent.

Context {platform : Platform} {casing : Casing}.

Definition generateLetterAvatar (dark : bool) (name : option jsstring)
    : LetterAvatar :=
  let upper := match name with
               | Some nm => toUpperCase (charAt0 (trim nm))
               | None => lit ""
               end in
  let letter := if truthy upper then upper else lit "?" in
  let hue := match letter with
             | c :: _ => Some ((c * 37) mod 360)%N
             | [] => None
             end in
  mkLetterAvatar letter hue
    (if dark then (50, 30)%N else (70, 80)%N)
    (if dark then (100, 90)%N else (50, 20)%N).

(** [Avatar({ user })] for a user with the given [name] and [avatar]. *)
Definition Avatar (dark : bool) (name avatar : option jsstring)
    : Proc AvatarView :=
  let saved := option_map trim avatar in
  generated <- generateAvatarUrl name ;;
  let la := generateLetterAvatar dark name in
  Ret (mkAvatarView
         (if truthy_opt saved then None else Some (la_hue la, la_bg la))
         (match saved with
          | Some (c :: src) =>
              SavedImage (c :: src)
                (match or_else generated None with
                 | Some g => g
                 | None => lit ""
                 end)
          | _ =>
              match or_else generated None with
              | Some g => GeneratedImage g
              | None => Letter (la_letter la)
              end
          end)).

End AvatarComponent.

(* ------------------------------------------------------------------ *)
(** ** What the page offers                                             *)
(* ------------------------------------------------------------------ *)

Definition opt_jsstring_eq_dec (a b : option jsstring) : {a = b} + {a <> b}.
Proof. decide equality. apply jsstring_eq_dec. Defined.

Definition User_eq_dec (a b : User) : {a = b} + {a <> b}.
Proof.
  decide equality;
    first [apply opt_jsstring_eq_dec | apply jsstring_eq_dec | apply Id_eq_dec].
Defined.

(** [u] has a card in the users list. *)
Definition listed (u : User) (s : State) : bool :=
  negb (loadingUsers s)
  && existsb (fun v => if User_eq_dec u v then true else false) (users s).

Definition modalOpen (s : State) : bool :=
  match selectedUser s with Some _ => true | None => false end.

Definition onPostsTab (s : State) : bool :=
  match activeTab s with TabPosts => modalOpen s | TabAlbums => false end.

(** The truthiness of [editId]. *)
Definition isEditing (s : State) : bool :=
  match editId s with Some i => truthy_id i | None => false end.

(** The control of an action is in the markup rendered for [s] and is
    not [disabled]. *)
Definition offered (s : State) (ev : UIEvent) : bool :=
  match ev with
  | Mount | ToggleDarkMode => true
  | ChangeName _ | ChangeEmail _ | SubmitUserForm => negb (formLoading s)
  | ChooseFile _ | DropFile _ | DragOver | DragLeave _ => true
  | RemoveAvatar => truthy_opt (avatarPreview s)
  | CancelEdit => isEditing s && negb (formLoading s)
  | ClickPosts u => listed u s
  | ClickEdit u => listed u s && negb (formLoading s)
  | ClickDelete id =>
      negb (loadingUsers s) && negb (formLoading s)
      && existsb (fun v => strict_eq (user_id v) id) (users s)
  | CloseModal | SelectPostsTab | SelectAlbumsTab => modalOpen s
  | AddNewPost => onPostsTab s
  | ChangePostTitle _ | ChangePostBody _ | SubmitPostForm | CancelPostForm =>
      onPostsTab s && showPostForm s && negb (postLoading s)
  end.

(** A sequence of actions each of which is offered when it is taken. *)
Fixpoint offeredAll {platform : Platform} (w : World) (evs : list UIEvent)
    (n : nat) (s : State) : bool :=
  match evs with
  | [] => true
  | ev :: evs' =>
      let o := run w (handler ev s) n s in
      offered s ev && offeredAll w evs' (next o) (final o)
  end.

(** No load or submission is in progress. *)
Definition idle (s : State) : Prop :=
  loadingUsers s = false /\ loadingPosts s = false
  /\ loadingAlbums s = false /\ postLoading s = false
  /\ formLoading s = false.

(** What a handler goes on with after
    [if (!res.ok) throw ...; await res.json()]: the parsed body of an
    answer that arrived with an ok status. *)
Definition accepted (X : Set) (a : Fetched X) : option X :=
  match a with
  | Some res => if ok res then body res else None
  | None => None
  end.

(** The [payload] and the [newUser] of [handleSubmit]. *)
Definition submitPayload (s : State) (id : Id) (avatar : option jsstring)
    : User :=
  mkUser id (trim (name s)) (trim (email s)) avatar None None None None.

Definition submitNewUser {platform : Platform} (s : State) (id : Id)
    (avatar : option jsstring) (createdAt : jsstring) : User :=
  mkUser id (trim (name s)) (trim (email s)) avatar
         (Some (stripWhiteSpace (toLowerCase (trim (name s)))))
         (Some (lit "Unknown")) (Some (lit "Unknown")) (Some createdAt).

(** The address [generateAvatarUrl] builds around an encoded name. *)
Definition avatarUrl (encoded : jsstring) : jsstring :=
  lit "https://ui-avatars.com/api/?name=" ++ encoded
  ++ lit "&size=128&background=random&bold=true&format=png".

(** The state [resetForm] leaves. *)
Definition formCleared (s : State) : State :=
  setFileInputValue (lit "")
    (setError (lit "")
       (setEditId None
          (setAvatarFile None
             (setAvatarPreview (Some (lit ""))
                (setEmail (lit "") (setName (lit "") s)))))).

(** Requests by endpoint. *)
Definition isUsersRequest (X : Set) (r : Req X) : bool :=
  match r with
  | GetUsers | PutUser _ _ | PostUser _ | DeleteUser _ => true
  | _ => false
  end.

Definition isPutUser (X : Set) (r : Req X) : bool :=
  match r with PutUser _ _ => true | _ => false end.

Definition isPostUser (X : Set) (r : Req X) : bool :=
  match r with PostUser _ => true | _ => false end.

Definition isGetPosts (X : Set) (r : Req X) : bool :=
  match r with GetPosts _ => true | _ => false end.

Definition anyRequest (X : Set) (r : Req X) : bool := true.

(** The actions of the modal. *)
Definition isModalAction (ev : UIEvent) : bool :=
  match ev with
  | ClickPosts _ | CloseModal | SelectPostsTab | SelectAlbumsTab | AddNewPost
  | ChangePostTitle _ | ChangePostBody _ | SubmitPostForm | CancelPostForm =>
      true
  | _ => false
  end.

(** A page whose modal is closed holds no posts, no albums and no open
    post form. *)
Definition closedClean (s : State) : Prop :=
  selectedUser s = None ->
  posts s = [] /\ albums s = [] /\ showPostForm s = false.

(** Updates that leave the selected user alone. *)
Definition keepsSelection (f : State -> State) : Prop :=
  forall s, selectedUser (f s) = selectedUser s.

(** Updates that leave the users list and the user form alone. *)
Definition keepsUsers (f : State -> State) : Prop :=
  forall s,
    users (f s) = users s /\ name (f s) = name s /\ email (f s) = email s
    /\ editId (f s) = editId s /\ avatarPreview (f s) = avatarPreview s
    /\ avatarFile (f s) = avatarFile s.

(* ------------------------------------------------------------------ *)
(** ** Concrete data                                                    *)
(* ------------------------------------------------------------------ *)

Module Demo.

(** A platform whose names are already lower case and need no
    escaping. *)
Definition platform : Platform :=
  {| toLowerCase := fun s => s; encodeURIComponent := fun s => Some s |}.

Definition alice : User :=
  mkUser (IdStr (lit "1")) (lit "Alice") (lit "alice@example.org")
         None (Some (lit "alice")) None None None.

Definition bob : User :=
  mkUser (IdStr (lit "2")) (lit "Bob") (lit "bob@example.org")
         None (Some (lit "bob")) None None None.

Definition numbered (k : nat) : User :=
  mkUser (IdNum (Z.of_nat k)) (lit "user") (lit "user@example.org")
         None None None None None.

(** Ten users, one more than the page keeps. *)
Definition tenUsers : list User := map numbered (seq 1 10).

Definition holiday : Album :=
  mkAlbum (IdNum 7) (lit "Holiday") (IdStr (lit "1")) None.

Definition snapshot : Photo :=
  mkPhoto (IdNum 70) (IdNum 7) (Some (lit "https://example.org/t/70.png")).


Definition hello : Post :=
  mkPost (IdNum 101) (lit "Hello") (lit "First post") (IdStr (lit "1")).

Definition ok200 {X : Set} (v : X) : Fetched X := Some (mkResponse true (Some v)).
Definition status500 {X : Set} (v : X) : Fetched X :=
  Some (mkResponse false (Some v)).

(** A server described by what each endpoint answers. *)
Record Server : Set := mkServer {
  allUsers : Fetched (list User);
  saved : Fetched User;
  deleted : Fetched unit;
  postsOf : Fetched (list Post);
  createdPost : Fetched Post;
  albumsOf : Fetched (list Album);
  photosOf : Fetched (list Photo);
  dataURL : option jsstring
}.

Definition serve (sv : Server) (X : Set) (k : nat) (r : Req X) : X :=
  match r in Req X return X with
  | GetUsers => allUsers sv
  | PutUser _ _ => saved sv
  | PostUser _ => saved sv
  | DeleteUser _ => deleted sv
  | GetPosts _ => postsOf sv
  | PostPost _ => createdPost sv
  | GetAlbums _ => albumsOf sv
  | GetPhotos _ _ => photosOf sv
  | ReadAsDataURL _ => dataURL sv
  end.

(** The browser: the clock reads [now], dialogs are confirmed. *)
Definition browser (now : Z) (X : Set) (k : nat) (c : Sys X) : X :=
  match c in Sys X return X with
  | DateNow => now
  | DateToISOString => lit "2025-01-01T00:00:00.000Z"
  | WindowConfirm _ => true
  | ConsoleError _ => tt
  | LocalStorageSetItem _ _ => tt
  end.

Definition world (sv : Server) : World :=
  mkWorld (serve sv) (browser 1700000000000) (fun _ s => s).

(** Every endpoint answers; alice has one album with one photo. *)
Definition up : Server :=
  mkServer (ok200 tenUsers) (ok200 bob) (ok200 tt) (ok200 [hello])
           (ok200 hello) (ok200 [holiday]) (ok200 [snapshot])
           (Some (lit "data:image/png;base64,AAAA")).

(** The same server for a user without albums. *)
Definition noAlbums : Server :=
  mkServer (ok200 tenUsers) (ok200 bob) (ok200 tt) (ok200 [hello])
           (ok200 hello) (ok200 []) (ok200 [snapshot])
           (Some (lit "data:image/png;base64,AAAA")).


(** No request gets through. *)
Definition down : Server :=
  mkServer None None None None None None None None.

Definition start : State := initialState false.

(** The form with a whitespace-only name. *)
Definition blankName : State :=
  setEmail (lit "alice@example.org") (setName (lit "  ") start).

(** The page with a draft post typed for alice. *)
Definition drafting : State :=
  setPostBody (lit "to be continued") (setPostTitle (lit "Draft")
    (setShowPostForm true (setSelectedUser (Some alice) start))).

Definition hugePng : File := mkFile (lit "image/png") (6 * 1024 * 1024).

(** The page while the posts of alice load, after [Posts] was pressed
    on her card. *)
Definition loadingAlice : State :=
  setError (lit "")
    (setLoadingPosts true
       (setActiveTab TabPosts
          (setShowPostForm false
             (setAlbums [] (setPosts [] (setSelectedUser (Some alice) start)))))).

(** A world in which an earlier load of the posts, still in flight, is
    answered while the handler at hand is suspended: its
    [setPosts(data)] and the [setLoadingPosts(false)] of its [finally]
    are applied in the meantime. *)
Definition overlapping : World :=
  mkWorld (serve up) (browser 1700000000000)
          (fun _ s => setLoadingPosts false (setPosts [hello] s)).

(** A world in which the user dismisses every dialog. *)
Definition declining : World :=
  mkWorld (serve up)
          (fun X k c =>
             match c in Sys X return X with
             | WindowConfirm _ => false
             | c' => browser 0 k c'
             end)
          (fun _ s => s).

(** A png of exactly the largest size the form accepts. *)
Definition largestPng : File := mkFile (lit "image/png") (5 * 1024 * 1024).

(** The form filled in for a new user, carol. *)
Definition newCarol : State :=
  setEmail (lit "carol@example.org") (setName (lit " Carol  ") start).

Definition carol : User :=
  mkUser (IdStr (lit "3")) (lit "Carol") (lit "carol@example.org")
         (Some (lit "https://example.org/carol.png")) (Some (lit "carol"))
         None None None.

(** A user whose id is the number zero. *)
Definition zero : User :=
  mkUser (IdNum 0) (lit "Zero") (lit "zero@example.org")
         (Some (lit "https://example.org/zero.png")) None None None None.

(** A platform with ASCII upper-casing of a first letter left as it is. *)
Definition casing : Casing := {| toUpperCase := fun s => s |}.

End Demo.

(* ------------------------------------------------------------------ *)
(** ** Strings                                                          *)
(* ------------------------------------------------------------------ *)

Lemma dropWhile_nil_iff (p : N -> bool) (s : jsstring) :
  dropWhile p s = [] <-> forallb p s = true.
Proof.
  induction s as [|c s IH]; simpl.
  - tauto.
  - destruct (p c); simpl; [exact IH | split; discriminate].
Qed.

Lemma forallb_dropWhile (p : N -> bool) (s : jsstring) :
  forallb p (dropWhile p s) = forallb p s.
Proof.
  induction s as [|c s IH]; simpl; [reflexivity|].
  destruct (p c) eqn:E; simpl; [exact IH | now rewrite E].
Qed.

Lemma forallb_rev (p : N -> bool) (s : jsstring) :
  forallb p (rev s) = forallb p s.
Proof.
  induction s as [|c s IH]; simpl; [reflexivity|].
  rewrite forallb_app, IH. simpl. rewrite andb_true_r. apply andb_comm.
Qed.

(** [s.trim()] is empty exactly for the whitespace-only strings. *)
Lemma trim_nil_iff (s : jsstring) : trim s = [] <-> blank s = true.
Proof.
  unfold trim, trimEnd, trimStart, blank.
  rewrite <- (forallb_dropWhile isWhiteSpace s).
  rewrite <- (forallb_rev isWhiteSpace (dropWhile isWhiteSpace s)).
  rewrite <- dropWhile_nil_iff.
  split; intros E.
  - apply (f_equal (@rev N)) in E. now rewrite rev_involutive in E.
  - now rewrite E.
Qed.

Lemma missing_iff_blank (s : jsstring) : missing s = blank s.
Proof.
  unfold missing. destruct (blank s) eqn:B.
  - apply trim_nil_iff in B. now rewrite B.
  - destruct (trim s) eqn:T; [|reflexivity].
    apply trim_nil_iff in T. congruence.
Qed.

Example isWhiteSpace_samples :
  map isWhiteSpace [32; 9; 10; 160; 8232; 65279; 97; 48; 8203]%N
  = [true; true; true; true; true; true; false; false; false].
Proof. reflexivity. Qed.

Example trim_sample : trim (lit "  Ada Lovelace ") = lit "Ada Lovelace".
Proof. reflexivity. Qed.

(* ------------------------------------------------------------------ *)
(** ** Running programs                                                 *)
(* ------------------------------------------------------------------ *)

(** Running [p] and then [f] is running [p], and when it completes
    normally running [f] from where [p] stopped. *)
Lemma run_bind (A B : Type) (w : World) (p : Proc A) (f : A -> Proc B)
    (n : nat) (s : State) :
  run w (bind p f) n s
  = let o := run w p n s in
    match completion o with
    | Normal a =>
        let o' := run w (f a) (next o) (final o) in
        mkOutcome (completion o') (final o') (trace o ++ trace o') (next o')
    | Uncaught e => mkOutcome (Uncaught e) (final o) (trace o) (next o)
    end.
Proof.
  revert n s.
  induction p as [a | e | g k IH | k IH | X c k IH | X r k IH | X rs k IH];
    intros n s; cbn [bind run].
  - cbv zeta. cbn [completion final trace next app].
    destruct (run w (f a) n s); reflexivity.
  - reflexivity.
  - apply IH.
  - apply IH.
  - rewrite IH. cbv zeta. cbn [logged completion final trace next].
    destruct (completion (run w (k (reply w n c)) (S n) s)); reflexivity.
  - rewrite IH. cbv zeta. cbn [logged completion final trace next].
    destruct (completion (run w (k (answer w n r)) (S n) (meanwhile w n s)));
      reflexivity.
  - rewrite IH. cbv zeta. cbn [logged completion final trace next].
    destruct (completion (run w (k (answers w n rs)) (n + List.length rs)
                              (meanwhile w n s))); reflexivity.
Qed.

(** A handler that throws outside [try] leaves the updates it queued. *)
Example createPost_without_selected_user :
  let s := setPostBody (lit "body") (setPostTitle (lit "title") Demo.start) in
  let o := run (Demo.world Demo.up) (createPost s) 0 s in
  completion o = Uncaught TypeError /\ postLoading (final o) = true
  /\ trace o = [].
Proof. cbv zeta. repeat split. Qed.

(* ------------------------------------------------------------------ *)
(** ** Users: loading, validating, deleting                             *)
(* ------------------------------------------------------------------ *)

(** C2.  When the users endpoint answers with the list [data],
    [loadUsers] stores [data.slice(0, 9)] as the users state: the first
    nine elements in the order of the response, and the whole list when it
    has at most nine. *)
Theorem loadUsers_keeps_first_nine (w : World) (n : nat) (s : State)
    (data : list User) :
  answer w n GetUsers = Some (mkResponse true (Some data)) ->
  let stored := users (final (run w loadUsers n s)) in
  stored = firstn 9 data
  /\ (exists rest, data = stored ++ rest)
  /\ List.length stored = Nat.min 9 (List.length data)
  /\ (List.length data <= 9 -> stored = data).
Proof.
  intros Hans. unfold loadUsers. cbn -[firstn]. rewrite Hans. cbn -[firstn].
  repeat split.
  - exists (skipn 9 data). symmetry. apply firstn_skipn.
  - apply length_firstn.
  - intros Hlen. now apply firstn_all2.
Qed.

Lemma loadUsers_keeps_first_nine_witness :
  answer (Demo.world Demo.up) 0 GetUsers
    = Some (mkResponse true (Some Demo.tenUsers))
  /\ users (final (run (Demo.world Demo.up) loadUsers 0 Demo.start))
     = map Demo.numbered (seq 1 9).
Proof.
  split; [reflexivity|].
  exact (proj1 (@loadUsers_keeps_first_nine (Demo.world Demo.up) 0 Demo.start
                  Demo.tenUsers eq_refl)).
Defined.

(** C3.  When the name or the email of the form is empty or
    whitespace-only, [handleSubmit] performs no operation at all outside
    the component (no request, no call), sets the error to the
    validation message and changes nothing else, the users list
    included. *)
Theorem handleSubmit_rejects_blank_fields (platform : Platform) (w : World)
    (n : nat) (s : State) :
  blank (name s) = true \/ blank (email s) = true ->
  let o := run w (handleSubmit s) n s in
  trace o = []
  /\ error (final o) = lit "Name and email required"
  /\ users (final o) = users s
  /\ final o = setError (lit "Name and email required") s.
Proof.
  intros Hblank. unfold handleSubmit.
  assert (Hmiss : missing (name s) || missing (email s) = true).
  { rewrite !missing_iff_blank. destruct Hblank as [-> | ->];
      [reflexivity | apply orb_true_r]. }
  rewrite Hmiss. simpl. repeat split.
Qed.

Lemma handleSubmit_rejects_blank_fields_witness :
  (blank (name Demo.blankName) = true \/ blank (email Demo.blankName) = true)
  /\ trace (run (Demo.world Demo.up) (@handleSubmit Demo.platform Demo.blankName)
                0 Demo.blankName) = [].
Proof.
  assert (H : blank (name Demo.blankName) = true
              \/ blank (email Demo.blankName) = true) by (left; reflexivity).
  split; [exact H|].
  exact (proj1 (@handleSubmit_rejects_blank_fields Demo.platform
                  (Demo.world Demo.up) 0 Demo.blankName H)).
Defined.

(** C4.  For a file whose type does not start with ["image/"] or whose
    size exceeds 5 * 1024 * 1024 bytes, [processFile] sets the message of
    that failure (the type is checked first), starts no read of the file
    and leaves [avatarPreview] and [avatarFile] as they were. *)
Theorem processFile_rejects_invalid_file (w : World) (n : nat) (s : State)
    (f : File) :
  startsWith (file_type f) (lit "image/") = false
  \/ (5 * 1024 * 1024 < file_size f)%N ->
  let o := run w (processFile (Some f)) n s in
  error (final o)
    = (if startsWith (file_type f) (lit "image/")
       then lit "Image must be < 5 MB."
       else lit "Please select a valid image.")
  /\ avatarPreview (final o) = avatarPreview s
  /\ avatarFile (final o) = avatarFile s
  /\ trace o = [].
Proof.
  intros Hbad. unfold processFile.
  destruct (startsWith (file_type f) (lit "image/")) eqn:Himg; simpl.
  - destruct Hbad as [Hbad | Hbad]; [discriminate|].
    apply N.ltb_lt in Hbad. unfold MAX_AVATAR_BYTES. rewrite Hbad. simpl.
    repeat split.
  - repeat split.
Qed.

Lemma processFile_rejects_invalid_file_witness :
  (startsWith (file_type Demo.hugePng) (lit "image/") = false
   \/ (5 * 1024 * 1024 < file_size Demo.hugePng)%N)
  /\ error (final (run (Demo.world Demo.up) (processFile (Some Demo.hugePng))
                       0 Demo.start))
     = lit "Image must be < 5 MB.".
Proof.
  assert (H : startsWith (file_type Demo.hugePng) (lit "image/") = false
              \/ (5 * 1024 * 1024 < file_size Demo.hugePng)%N)
    by (right; reflexivity).
  split; [exact H|].
  exact (proj1 (@processFile_rejects_invalid_file (Demo.world Demo.up) 0
                  Demo.start Demo.hugePng H)).
Defined.

(** [users.filter((u) => u.id !== id)] keeps exactly the users with
    another id. *)
Lemma In_filter_other_id (id : Id) (us : list User) (u : User) :
  In u (filter (fun v => negb (strict_eq (user_id v) id)) us)
  <-> In u us /\ user_id u <> id.
Proof.
  rewrite filter_In. unfold strict_eq.
  destruct (Id_eq_dec (user_id u) id); simpl; intuition congruence.
Qed.

(** C8.  Once the user has confirmed the dialog, [handleDelete] removes
    the users with the given id from the list whenever the [fetch] is
    answered, whatever the status of the answer ([res.ok] is not looked
    at), and leaves the error as it was; only a rejected [fetch] sets
    ["Delete failed."], and then the list stays as it was.  [held] is the
    state at the time the request settles. *)
Theorem handleDelete_removes_unless_fetch_rejects (w : World) (n : nat)
    (s : State) (id : Id) :
  reply w n (WindowConfirm (lit "Delete this user?")) = true ->
  let held := meanwhile w (S n) (setFormLoading true s) in
  let o := run w (handleDelete id) n s in
  (forall res : Response unit,
      answer w (S n) (DeleteUser id) = Some res ->
      users (final o)
        = filter (fun u => negb (strict_eq (user_id u) id)) (users held)
      /\ (forall u, In u (users (final o))
                    <-> In u (users held) /\ user_id u <> id)
      /\ error (final o) = error held)
  /\ (answer w (S n) (DeleteUser id) = None ->
      users (final o) = users held
      /\ error (final o) = lit "Delete failed.").
Proof.
  intros Hyes. unfold handleDelete. cbn -[filter lit]. rewrite Hyes.
  cbn -[filter lit].
  split.
  - intros res Hres. rewrite Hres. cbn -[filter].
    split; [reflexivity|]. split; [|reflexivity].
    intros u. apply In_filter_other_id.
  - intros Hrej. rewrite Hrej. cbn. split; reflexivity.
Qed.

Lemma handleDelete_removes_unless_fetch_rejects_witness :
  reply (Demo.world (Demo.mkServer None None (Demo.status500 tt) None None
                                   None None None))
        0 (WindowConfirm (lit "Delete this user?")) = true
  /\ users (final (run (Demo.world (Demo.mkServer None None (Demo.status500 tt)
                                                  None None None None None))
                       (handleDelete (IdStr (lit "1"))) 0
                       (setUsers [Demo.alice; Demo.bob] Demo.start)))
     = [Demo.bob].
Proof.
  split; [reflexivity|].
  exact (proj1 (proj1 (@handleDelete_removes_unless_fetch_rejects
                         (Demo.world (Demo.mkServer None None (Demo.status500 tt)
                                                    None None None None None))
                         0 (setUsers [Demo.alice; Demo.bob] Demo.start)
                         (IdStr (lit "1")) eq_refl)
                      (mkResponse false (Some tt)) eq_refl)).
Defined.

(* ------------------------------------------------------------------ *)
(** ** Posts and the modal                                              *)
(* ------------------------------------------------------------------ *)

(** C5.  When the create-post request succeeds with the post [created],
    the posts list becomes the posts held at that time behind a new head
    that has the title, body and user of [created] and the reading of
    [Date.now()] as its id: the id of [created] is not used. *)
Theorem createPost_replaces_server_id (w : World) (n : nat) (s : State)
    (u : User) (created : Post) (now : Z) :
  blank (postTitle s) = false ->
  blank (postBody s) = false ->
  selectedUser s = Some u ->
  answer w n (PostPost (mkNewPost (trim (postTitle s)) (trim (postBody s))
                                  (user_id u)))
    = Some (mkResponse true (Some created)) ->
  reply w (S n) DateNow = now ->
  let held := posts (meanwhile w n (setPostLoading true s)) in
  posts (final (run w (createPost s) n s))
    = mkPost (IdNum now) (post_title created) (post_body created)
             (post_userId created) :: held.
Proof.
  intros Ht Hb Hu Hans Hnow. unfold createPost, selectedUser_id.
  rewrite !missing_iff_blank, Ht, Hb, Hu. cbn. rewrite Hans. cbn.
  rewrite Hnow. reflexivity.
Qed.

Lemma createPost_replaces_server_id_witness :
  post_id Demo.hello = IdNum 101
  /\ posts (final (run (Demo.world Demo.up) (createPost Demo.drafting) 0
                       (setPosts [Demo.hello] Demo.drafting)))
     = [mkPost (IdNum 1700000000000) (lit "Hello") (lit "First post")
               (IdStr (lit "1")); Demo.hello].
Proof.
  split; [reflexivity|].
  exact (@createPost_replaces_server_id (Demo.world Demo.up) 0
           (setPosts [Demo.hello] Demo.drafting) Demo.alice Demo.hello
           1700000000000 eq_refl eq_refl eq_refl eq_refl eq_refl).
Defined.

(** C6.  From every state, [closePosts] leaves the posts list empty, the
    albums list empty, no selected user and the new-post form hidden. *)
Theorem closePosts_clears_modal (w : World) (n : nat) (s : State) :
  let s' := final (run w closePosts n s) in
  posts s' = [] /\ albums s' = [] /\ selectedUser s' = None
  /\ showPostForm s' = false.
Proof. cbn. repeat split. Qed.

(** C9.  [closePosts] leaves [postTitle] and [postBody] as they were, and
    so does opening the modal again: after closing, opening the posts of
    any user [u] and pressing [Add New Post], the form shows the draft
    that was there before the modal was closed. *)
Theorem draft_survives_closing_the_modal (platform : Platform) (w : World)
    (n : nat) (s : State) (u : User) :
  quiet w ->
  let closed := final (run w closePosts n s) in
  postTitle closed = postTitle s
  /\ postBody closed = postBody s
  /\ postFormShown (final (session w [CloseModal; ClickPosts u; AddNewPost] n s))
     = Some (postTitle s, postBody s).
Proof.
  intros Hq. split; [reflexivity|]. split; [reflexivity|].
  cbn. rewrite Hq.
  destruct (answer w n (GetPosts (user_id u))) as [[[] [data|]]|]; reflexivity.
Qed.

Lemma draft_survives_closing_the_modal_witness :
  quiet (Demo.world Demo.up)
  /\ postFormShown
       (final (session (platform := Demo.platform) (Demo.world Demo.up)
                       [CloseModal; ClickPosts Demo.bob; AddNewPost] 0
                       Demo.drafting))
     = Some (lit "Draft", lit "to be continued").
Proof.
  assert (Hq : quiet (Demo.world Demo.up)) by (intros k s; reflexivity).
  split; [exact Hq|].
  exact (proj2 (proj2 (@draft_survives_closing_the_modal Demo.platform
                         (Demo.world Demo.up) 0 Demo.drafting Demo.bob Hq))).
Defined.

(* ------------------------------------------------------------------ *)
(** ** Albums                                                           *)
(* ------------------------------------------------------------------ *)

(** The callback of [loadAlbums] only computes once its request is
    answered. *)
Lemma withThumb_eq (album : Album) (a : Fetched (list Photo)) :
  withThumb album a
  = match photosIn a with
    | Some photos => Ret (album_with_thumbnail album (firstThumbnail photos))
    | None => Throw (match a with None => NetworkError | Some _ => SyntaxError end)
    end.
Proof. destruct a as [[o [photos|]]|]; reflexivity. Qed.



(** What [loadAlbums] does once the albums endpoint has answered with a
    list: it suspends twice, on the list and on all photo requests at
    once, and then stores the albums or reports the failure. *)
Lemma loadAlbums_after_list (w : World) (n : nat) (s : State) (userId : Id)
    (albumsData : list Album) :
  answer w n (GetAlbums userId) = Some (mkResponse true (Some albumsData)) ->
  let s1 := setError (lit "") (setLoadingAlbums true s) in
  let s2 := meanwhile w n s1 in
  let s3 := meanwhile w (S n) s2 in
  let reqs := map (fun album => GetPhotos (album_id album) 1) albumsData in
  let callbacks :=
    mapM (fun xy => withThumb (fst xy) (snd xy))
         (combine albumsData (answers w (S n) reqs)) in
  let o := run w (loadAlbums userId) n s in
  (forall ys, callbacks = Ret ys ->
     final o = setLoadingAlbums false (setAlbums ys s3)
     /\ trace o = [Suspended s1 [GetAlbums userId] s2; Suspended s2 reqs s3])
  /\ (forall e, callbacks = Throw e ->
     final o = setLoadingAlbums false
                 (setError (lit "Failed to load albums.") s3)
     /\ trace o = [Suspended s1 [GetAlbums userId] s2; Suspended s2 reqs s3;
                   Called (ConsoleError e)]).
Proof.
  intros Hans. unfold loadAlbums, Promise_all_map.
  cbn -[mapM withThumb lit]. rewrite Hans. cbn -[mapM withThumb lit].
  split; intros r Hr; rewrite Hr; cbn -[lit]; split; reflexivity.
Qed.








Lemma callbacks_settle (l : list (Album * Fetched (list Photo))) :
  (exists ys, mapM (fun xy => withThumb (fst xy) (snd xy)) l = Ret ys)
  \/ (exists e, mapM (fun xy => withThumb (fst xy) (snd xy)) l = Throw e).
Proof.
  induction l as [|[album a] l IH]; [left; eexists; reflexivity|].
  cbn [mapM fst snd]. rewrite withThumb_eq.
  destruct (photosIn a); [|right; eexists; reflexivity].
  destruct IH as [[ys ->] | [e ->]]; [left | right]; eexists; reflexivity.
Qed.

(* ------------------------------------------------------------------ *)
(** ** Loading flags                                                    *)
(* ------------------------------------------------------------------ *)

(** C10, as amended.  Every run of [loadUsers], [loadPosts] and
    [loadAlbums], whether its requests succeed or fail and whatever else
    happens on the page, has the error empty and its loading flag set
    when it first suspends, and ends with the flag cleared; the flag is
    set for the whole time the load is suspended provided nothing else
    writes that flag in the meantime. *)
Theorem loads_clear_error_and_flag_the_load (w : World) (n : nat) (s : State)
    (userId : Id) :
  (loadingBrackets loadingUsers (run w loadUsers n s)
   /\ ((forall k st, loadingUsers (meanwhile w k st) = loadingUsers st) ->
       loadingDiscipline loadingUsers (run w loadUsers n s)))
  /\ (loadingBrackets loadingPosts (run w (loadPosts userId) n s)
      /\ ((forall k st, loadingPosts (meanwhile w k st) = loadingPosts st) ->
          loadingDiscipline loadingPosts (run w (loadPosts userId) n s)))
  /\ (loadingBrackets loadingAlbums (run w (loadAlbums userId) n s)
      /\ ((forall k st, loadingAlbums (meanwhile w k st) = loadingAlbums st) ->
          loadingDiscipline loadingAlbums (run w (loadAlbums userId) n s))).
Proof.
  unfold loadingBrackets, loadingDiscipline. split; [|split].
  - unfold loadUsers. cbn -[firstn].
    destruct (answer w n GetUsers) as [[[] [data|]]|]; cbn -[firstn];
      (split; [split; [do 2 eexists; repeat split | reflexivity]|]);
      intros HU; (split; [do 2 eexists; split; reflexivity|]);
      (split; [repeat constructor; apply HU | reflexivity]).
  - unfold loadPosts. cbn.
    destruct (answer w n (GetPosts userId)) as [[[] [data|]]|]; cbn;
      (split; [split; [do 2 eexists; repeat split | reflexivity]|]);
      intros HP; (split; [do 2 eexists; split; reflexivity|]);
      (split; [repeat constructor; apply HP | reflexivity]).
  - destruct (answer w n (GetAlbums userId)) as [[[] [data|]]|] eqn:Hans.
    2-5: unfold loadAlbums; cbn; rewrite Hans; cbn;
      (split; [split; [do 2 eexists; repeat split | reflexivity]|]);
      intros HA; (split; [do 2 eexists; split; reflexivity|]);
      (split; [repeat constructor; apply HA | reflexivity]).
    destruct (loadAlbums_after_list w n s userId Hans) as [Hok Hfail].
    destruct (callbacks_settle
                (combine data
                   (answers w (S n)
                      (map (fun album => GetPhotos (album_id album) 1) data))))
      as [[ys Hys] | [e He]];
      [destruct (Hok ys Hys) as [-> ->] | destruct (Hfail e He) as [-> ->]];
      (split; [split; [do 2 eexists; repeat split | reflexivity]|]);
      intros HA; (split; [do 2 eexists; split; reflexivity|]);
      (split; [|reflexivity]); cbn;
      repeat constructor; rewrite ?HA; try reflexivity; apply HA.
Qed.

Lemma loads_clear_error_and_flag_the_load_witness :
  quiet (Demo.world Demo.down)
  /\ loadingDiscipline loadingAlbums
       (run (Demo.world Demo.down) (loadAlbums (IdStr (lit "1"))) 0
            (setError (lit "Delete failed.") Demo.start))
  /\ loadingBrackets loadingPosts
       (run Demo.overlapping (loadPosts (IdStr (lit "1"))) 0 Demo.loadingAlice).
Proof.
  split; [intros k st; reflexivity|]. split.
  - exact (proj2 (proj2 (proj2
             (@loads_clear_error_and_flag_the_load (Demo.world Demo.down) 0
                (setError (lit "Delete failed.") Demo.start)
                (IdStr (lit "1"))))) (fun _ _ => eq_refl)).
  - exact (proj1 (proj1 (proj2
             (@loads_clear_error_and_flag_the_load Demo.overlapping 0
                Demo.loadingAlice (IdStr (lit "1")))))).
Defined.

(** C10 as stated fails when two loads of the same kind overlap.  While
    the posts of alice load, the list is still empty, so the Posts tab,
    which is offered, starts a second [loadPosts]; when the first load
    is answered its [finally] clears [loadingPosts], and the second load
    is still suspended with its flag cleared. *)
Lemma overlapping_load_loses_its_flag :
  let s := Demo.loadingAlice in
  let o := run Demo.overlapping (loadPosts (user_id Demo.alice)) 0 s in
  hd_error (screens (trace (run (Demo.world Demo.up)
                              (openUserPosts Demo.alice) 0 Demo.start)))
    = Some s
  /\ offered s SelectPostsTab = true
  /\ run Demo.overlapping (selectPostsTab s) 0 s = o
  /\ map loadingPosts (screens (trace o)) = [true; false]
  /\ ~ loadingDiscipline loadingPosts o.
Proof.
  cbv zeta. repeat split; try reflexivity.
  intros (_ & Hall & _). vm_compute in Hall.
  inversion Hall as [|? ? _ Hrest]. inversion Hrest as [|? ? Hflag _].
  discriminate Hflag.
Qed.

(* ------------------------------------------------------------------ *)
(** ** The Albums tab                                                   *)
(* ------------------------------------------------------------------ *)

Lemma session_app (platform : Platform) (w : World) (evs1 evs2 : list UIEvent)
    (n : nat) (s : State) :
  let o1 := session w evs1 n s in
  let o2 := session w evs2 (next o1) (final o1) in
  final (session w (evs1 ++ evs2) n s) = final o2
  /\ trace (session w (evs1 ++ evs2) n s) = trace o1 ++ trace o2
  /\ next (session w (evs1 ++ evs2) n s) = next o2.
Proof.
  revert n s. induction evs1 as [|ev evs1 IH]; intros n s; cbn.
  - repeat split.
  - destruct (IH (next (run w (handler ev s) n s))
                 (final (run w (handler ev s) n s))) as (Hf & Ht & Hn).
    rewrite Hf, Ht, Hn, app_assoc. repeat split.
Qed.

Lemma albumFetches_app (tr1 tr2 : list Entry) :
  albumFetches (tr1 ++ tr2) = albumFetches tr1 + albumFetches tr2.
Proof.
  unfold albumFetches, countRequests. now rewrite map_app, list_sum_app.
Qed.

(** In a quiet world a program that leaves the albums alone and does not
    call the albums endpoint does just that when it runs. *)
Lemma run_tame (A : Type) (w : World) (p : Proc A) :
  quiet w ->
  Tame keepsAlbums isGetAlbums p ->
  forall n s,
    albums (final (run w p n s)) = albums s
    /\ selectedUser (final (run w p n s)) = selectedUser s
    /\ albumFetches (trace (run w p n s)) = 0.
Proof.
  intros Hq Ht.
  induction Ht as [a | e | f k Hf _ IH | k _ IH | X c k _ IH | X r k Hr _ IH
                   | X rs k Hrs _ IH]; intros n s; cbn [run].
  - repeat split.
  - repeat split.
  - destruct (IH n (f s)) as (Ha & Hs & Hc), (Hf s) as [Hfa Hfs].
    rewrite Ha, Hs, Hc. auto.
  - apply IH.
  - destruct (IH (reply w n c) (S n) s) as (Ha & Hs & Hc). cbn. auto.
  - rewrite Hq. destruct (IH (answer w n r) (S n) s) as (Ha & Hs & Hc).
    cbn [logged final trace]. repeat split; try assumption.
    change (Suspended s [r] s :: ?t) with ([Suspended s [r] s] ++ t).
    rewrite albumFetches_app, Hc. cbn. now rewrite Hr.
  - rewrite Hq.
    destruct (IH (answers w n rs) (n + List.length rs) s) as (Ha & Hs & Hc).
    cbn [logged final trace]. repeat split; try assumption.
    change (Suspended s rs s :: ?t) with ([Suspended s rs s] ++ t).
    rewrite albumFetches_app, Hc. cbn. now rewrite Hrs.
Qed.

Ltac tame :=
  repeat (cbn -[lit];
          match goal with
          | |- forall _, _ => intro
          | |- keepsAlbums _ => intro; split; reflexivity
          | |- _ = _ => reflexivity
          | |- Tame _ _ _ => constructor
          | |- context [match ?x with _ => _ end] => destruct x
          end).

(** Every action offered in the modal, other than an albums load, is
    such a program. *)
Lemma handler_tame (platform : Platform) (ev : UIEvent) (s : State) :
  inModal ev = true ->
  (isSelectAlbumsTab ev = true -> albums s <> []) ->
  Tame keepsAlbums isGetAlbums (handler ev s).
Proof.
  intros Hin Hsel. destruct ev; try discriminate Hin; cbn [handler].
  all: try match goal with
           | |- Tame _ _ (selectAlbumsTab _) =>
               unfold selectAlbumsTab; destruct (albums s) eqn:E;
               [exfalso; now apply Hsel | tame]
           end.
  all: unfold loadUsers, toggleDarkMode, handleFileChange, handleDrop,
         handleDragOver, handleDragLeave, removeAvatar, handleSubmit, cancelEdit, resetForm,
         startEdit, handleDelete, selectPostsTab, showNewPostForm, createPost,
         cancelPostForm, processFile, loadPosts, selectedUser_id,
         generateAvatarUrl, console_error, fetch, fetched, json, throw, set;
    tame.
Qed.

Lemma session_tame (platform : Platform) (w : World) (evs : list UIEvent) :
  quiet w ->
  forallb inModal evs = true ->
  forall n s,
    albums s <> []
    \/ forallb (fun ev => negb (isSelectAlbumsTab ev)) evs = true ->
    albums (final (session w evs n s)) = albums s
    /\ selectedUser (final (session w evs n s)) = selectedUser s
    /\ albumFetches (trace (session w evs n s)) = 0.
Proof.
  intros Hq. induction evs as [|ev evs IH]; intros Hin n s Hor.
  - repeat split.
  - cbn [forallb] in Hin. apply andb_true_iff in Hin as [Hev Hin].
    assert (Ht : Tame keepsAlbums isGetAlbums (handler ev s)).
    { apply handler_tame; [exact Hev|]. intros Hsel.
      destruct Hor as [Hne | Hno]; [exact Hne|].
      cbn [forallb] in Hno. rewrite Hsel in Hno. discriminate. }
    destruct (@run_tame unit w (handler ev s) Hq Ht n s) as (Ha & Hs & Hc).
    destruct (IH Hin (next (run w (handler ev s) n s))
                 (final (run w (handler ev s) n s))) as (Ha' & Hs' & Hc').
    { rewrite Ha. destruct Hor as [Hne | Hno]; [now left | right].
      cbn [forallb] in Hno. now apply andb_true_iff in Hno. }
    cbn [session final trace]. rewrite albumFetches_app, Ha', Hs', Hc', Hc.
    auto.
Qed.

Lemma no_albums_request_among_photos (data : list Album) :
  filter (isGetAlbums (X:=Fetched (list Photo)))
         (map (fun album => GetPhotos (album_id album) 1) data) = [].
Proof. induction data as [|a data IH]; [reflexivity | exact IH]. Qed.

(** Every [loadAlbums] calls the albums endpoint once. *)
Lemma loadAlbums_fetches_once (w : World) (n : nat) (s : State) (userId : Id) :
  albumFetches (trace (run w (loadAlbums userId) n s)) = 1.
Proof.
  destruct (answer w n (GetAlbums userId)) as [[[] [data|]]|] eqn:Hans.
  2-5: unfold loadAlbums; cbn; rewrite Hans; reflexivity.
  destruct (loadAlbums_after_list w n s userId Hans) as [Hok Hfail].
  destruct (callbacks_settle
              (combine data
                 (answers w (S n)
                    (map (fun album => GetPhotos (album_id album) 1) data))))
    as [[ys Hys] | [e He]];
    [destruct (Hok ys Hys) as [_ ->] | destruct (Hfail e He) as [_ ->]];
    unfold albumFetches, countRequests; cbn -[filter];
    rewrite no_albums_request_among_photos; reflexivity.
Qed.

(** The tab button loads only while the albums list is empty. *)
Lemma selectAlbumsTab_guard (w : World) (n : nat) (s : State) (u : User) :
  selectedUser s = Some u ->
  albumFetches (trace (run w (selectAlbumsTab s) n s))
  = match albums s with [] => 1 | _ :: _ => 0 end.
Proof.
  intros Hu. unfold selectAlbumsTab, selectedUser_id. rewrite Hu.
  destruct (albums s); cbn [bind set run]; [|reflexivity].
  apply loadAlbums_fetches_once.
Qed.

(** Opening the modal empties the albums and calls the posts endpoint
    only. *)
Lemma openUserPosts_resets_albums (w : World) (n : nat) (s : State) (u : User) :
  quiet w ->
  let o := run w (openUserPosts u) n s in
  albums (final o) = [] /\ selectedUser (final o) = Some u
  /\ albumFetches (trace o) = 0.
Proof.
  intros Hq. unfold openUserPosts, loadPosts. cbn. rewrite Hq.
  destruct (answer w n (GetPosts (user_id u))) as [[[] [data|]]|]; cbn;
    repeat split.
Qed.

(** C1, as amended.  In a modal session whose handlers run one after
    another, from [openUserPosts] on and before [closePosts], if the load
    started by the first selection of the Albums tab stores a non-empty
    list of albums, then the session calls the albums endpoint exactly
    once, whatever else is done in the modal and however often the tab is
    selected again. *)
Theorem albums_tab_fetches_once (platform : Platform) (w : World) (n : nat)
    (s0 : State) (u : User) (pre evs : list UIEvent) :
  quiet w ->
  forallb inModal pre = true ->
  forallb (fun ev => negb (isSelectAlbumsTab ev)) pre = true ->
  forallb inModal evs = true ->
  let opened := session w (ClickPosts u :: pre) n s0 in
  albums (final (run w (selectAlbumsTab (final opened)) (next opened)
                     (final opened))) <> [] ->
  albumFetches
    (trace (session w (ClickPosts u :: pre ++ SelectAlbumsTab :: evs) n s0))
  = 1.
Proof.
  intros Hq Hpre Hno Hevs opened Hstored.
  change (ClickPosts u :: pre ++ SelectAlbumsTab :: evs)
    with ((ClickPosts u :: pre) ++ [SelectAlbumsTab] ++ evs).
  destruct (@session_app platform w (ClickPosts u :: pre)
              ([SelectAlbumsTab] ++ evs) n s0) as (_ & -> & _).
  fold opened.
  assert (Hopened : albums (final opened) = []
                    /\ selectedUser (final opened) = Some u
                    /\ albumFetches (trace opened) = 0).
  { unfold opened. cbn [session final trace handler].
    destruct (@openUserPosts_resets_albums w n s0 u Hq) as (Ha & Hs & Hc).
    destruct (@session_tame platform w pre Hq Hpre
                (next (run w (openUserPosts u) n s0))
                (final (run w (openUserPosts u) n s0)) (or_intror Hno))
      as (Ha' & Hs' & Hc').
    rewrite albumFetches_app, Ha', Hs', Hc', Hc, Ha, Hs. auto. }
  destruct Hopened as (Ha & Hs & Hc).
  cbn [app session final trace handler].
  set (sel := run w (selectAlbumsTab (final opened)) (next opened)
                  (final opened)) in *.
  destruct (@session_tame platform w evs Hq Hevs (next sel) (final sel)
              (or_introl Hstored)) as (_ & _ & Hc').
  rewrite !albumFetches_app, Hc, Hc'.
  unfold sel, selectAlbumsTab, selectedUser_id. rewrite Ha, Hs.
  cbn [bind set run]. rewrite loadAlbums_fetches_once. reflexivity.
Qed.

Lemma albums_tab_fetches_once_witness :
  quiet (Demo.world Demo.up)
  /\ albumFetches
       (trace (session (platform := Demo.platform) (Demo.world Demo.up)
                 [ClickPosts Demo.alice; AddNewPost; SelectAlbumsTab;
                  SelectPostsTab; SelectAlbumsTab; SelectAlbumsTab]
                 0 Demo.start)) = 1.
Proof.
  assert (Hq : quiet (Demo.world Demo.up)) by (intros k s; reflexivity).
  split; [exact Hq|].
  refine (@albums_tab_fetches_once Demo.platform (Demo.world Demo.up) 0
            Demo.start Demo.alice [AddNewPost]
            [SelectPostsTab; SelectAlbumsTab; SelectAlbumsTab]
            Hq eq_refl eq_refl eq_refl _).
  vm_compute. discriminate.
Defined.

(** C1 as stated fails for a user without albums: the list stays empty
    after the load, so every selection of the Albums tab in the same
    session loads again. *)
Lemma albums_tab_refetches_empty_list :
  let o := session (platform := Demo.platform) (Demo.world Demo.noAlbums)
             [ClickPosts Demo.alice; SelectAlbumsTab; SelectPostsTab;
              SelectAlbumsTab; SelectAlbumsTab] 0 Demo.start in
  albumFetches (trace o) = 3 /\ albumFetches (trace o) <> 1.
Proof. cbv zeta. split; [reflexivity | vm_compute; discriminate]. Qed.

(* ------------------------------------------------------------------ *)
(** ** Trimming and the avatar address                                  *)
(* ------------------------------------------------------------------ *)

Lemma dropWhile_split (p : N -> bool) (s : jsstring) :
  exists pre, s = pre ++ dropWhile p s /\ forallb p pre = true.
Proof.
  induction s as [|c s (pre & Hs & Hp)]; [exists []; split; reflexivity|].
  cbn [dropWhile]. destruct (p c) eqn:E.
  - exists (c :: pre). cbn. rewrite E, Hp. split; [congruence | reflexivity].
  - exists []. split; reflexivity.
Qed.

Lemma dropWhile_head (p : N -> bool) (s : jsstring) :
  match dropWhile p s with
  | c :: _ => p c = false
  | [] => True
  end.
Proof.
  induction s as [|c s IH]; cbn [dropWhile]; [exact I|].
  destruct (p c) eqn:E; [exact IH | exact E].
Qed.

Lemma dropWhile_stops (p : N -> bool) (s : jsstring) :
  match s with c :: _ => p c = false | [] => True end ->
  dropWhile p s = s.
Proof. destruct s as [|c s]; cbn; [reflexivity | now intros ->]. Qed.

Lemma dropWhile_idempotent (p : N -> bool) (s : jsstring) :
  dropWhile p (dropWhile p s) = dropWhile p s.
Proof. apply dropWhile_stops, dropWhile_head. Qed.

(** [trimEnd] cuts a whitespace suffix off. *)
Lemma trimEnd_split (s : jsstring) :
  exists suffix, s = trimEnd s ++ suffix /\ blank suffix = true.
Proof.
  destruct (dropWhile_split isWhiteSpace (rev s)) as (pre & Hs & Hp).
  exists (rev pre). unfold trimEnd, blank. split.
  - rewrite <- rev_app_distr, <- Hs. symmetry. apply rev_involutive.
  - now rewrite forallb_rev.
Qed.

(** [trimStart] cuts a whitespace prefix off. *)
Lemma trimStart_split (s : jsstring) :
  exists prefix, s = prefix ++ trimStart s /\ blank prefix = true.
Proof. apply dropWhile_split. Qed.

Lemma trimEnd_keeps_head (s : jsstring) :
  match s with c :: _ => isWhiteSpace c = false | [] => True end ->
  match trimEnd s with c :: _ => isWhiteSpace c = false | [] => True end.
Proof.
  intros Hs. destruct (trimEnd_split s) as (suffix & Hsplit & _).
  destruct (trimEnd s) as [|c t]; [exact I|].
  rewrite Hsplit in Hs. exact Hs.
Qed.

(** Trimming twice is trimming once. *)
Lemma trim_idempotent (s : jsstring) : trim (trim s) = trim s.
Proof.
  unfold trim at 1. unfold trimStart at 1.
  rewrite dropWhile_stops.
  - unfold trim, trimEnd. rewrite rev_involutive.
    now rewrite dropWhile_idempotent.
  - unfold trim. apply trimEnd_keeps_head. apply dropWhile_head.
Qed.

(** What [trim] returns lies in its argument between two runs of
    whitespace and neither starts nor ends with whitespace. *)
Lemma trim_spec (s : jsstring) :
  (exists prefix suffix,
      s = prefix ++ trim s ++ suffix
      /\ blank prefix = true /\ blank suffix = true)
  /\ match trim s with c :: _ => isWhiteSpace c = false | [] => True end
  /\ match rev (trim s) with c :: _ => isWhiteSpace c = false | [] => True end.
Proof.
  split; [|split].
  - destruct (trimStart_split s) as (prefix & Hs & Hp).
    destruct (trimEnd_split (trimStart s)) as (suffix & Ht & Hsuf).
    exists prefix, suffix. unfold trim. now rewrite <- Ht.
  - unfold trim. apply trimEnd_keeps_head, dropWhile_head.
  - unfold trim, trimEnd. rewrite rev_involutive. apply dropWhile_head.
Qed.

Lemma missing_trim (s : jsstring) : missing (trim s) = missing s.
Proof. unfold missing. now rewrite trim_idempotent. Qed.

Lemma generateAvatarUrl_of_name (platform : Platform) (nm encoded : jsstring) :
  blank nm = false ->
  encodeURIComponent (trim nm) = Some encoded ->
  generateAvatarUrl (Some nm) = Ret (Some (avatarUrl encoded)).
Proof.
  intros Hb He. unfold generateAvatarUrl.
  now rewrite missing_iff_blank, Hb, He.
Qed.

(** X14.  The address [generateAvatarUrl] builds depends on the trimmed
    name only, and the function returns [null] exactly for the blank
    names. *)
Theorem generateAvatarUrl_ignores_outer_whitespace (platform : Platform)
    (nm : jsstring) :
  generateAvatarUrl (Some (trim nm)) = generateAvatarUrl (Some nm)
  /\ (generateAvatarUrl (Some nm) = Ret None <-> blank nm = true).
Proof.
  unfold generateAvatarUrl. rewrite missing_trim, trim_idempotent.
  split; [reflexivity|].
  rewrite missing_iff_blank. destruct (blank nm); [tauto|].
  destruct (encodeURIComponent (trim nm)); split; discriminate.
Qed.

(* ------------------------------------------------------------------ *)
(** ** Checked answers                                                  *)
(* ------------------------------------------------------------------ *)

Lemma accepted_Some (X : Set) (a : Fetched X) (v : X) :
  accepted a = Some v -> a = Some (mkResponse true (Some v)).
Proof.
  destruct a as [[[] [b|]]|]; cbn; intros H; try discriminate H.
  now injection H as ->.
Qed.

Lemma accepted_None (X : Set) (a : Fetched X) :
  accepted a = None ->
  a = None \/ (exists b, a = Some (mkResponse false b))
  \/ a = Some (mkResponse true None).
Proof.
  destruct a as [[[] [b|]]|]; cbn; intros H; try discriminate H; eauto.
Qed.

(* ------------------------------------------------------------------ *)
(** ** More on the users list                                           *)
(* ------------------------------------------------------------------ *)

(** X10.  When the users request is rejected, or answered with a status
    that is not ok or with a body that does not parse, [loadUsers] leaves
    the users list as it is, sets the error to ["Failed to load users."]
    and clears the loading flag; it has made that one request. *)
Theorem loadUsers_failure_keeps_users (w : World) (n : nat) (s : State) :
  accepted (answer w n GetUsers) = None ->
  let held := meanwhile w n (setError (lit "") (setLoadingUsers true s)) in
  let o := run w loadUsers n s in
  final o = setLoadingUsers false (setError (lit "Failed to load users.") held)
  /\ users (final o) = users held
  /\ countRequests anyRequest (trace o) = 1.
Proof.
  intros Hacc. unfold loadUsers.
  destruct (accepted_None _ Hacc) as [H | [[b H] | H]];
    cbn -[lit firstn]; rewrite H; cbn -[lit firstn]; repeat split.
Qed.

Lemma loadUsers_failure_keeps_users_witness :
  accepted (answer (Demo.world Demo.down) 0 GetUsers) = None
  /\ users (final (run (Demo.world Demo.down) loadUsers 0
                       (setUsers [Demo.alice] Demo.start)))
     = [Demo.alice].
Proof.
  split; [reflexivity|].
  exact (proj1 (proj2 (@loadUsers_failure_keeps_users (Demo.world Demo.down) 0
                         (setUsers [Demo.alice] Demo.start) eq_refl))).
Defined.

(** X7.  When the user dismisses the confirmation dialog, [handleDelete]
    makes no request and changes nothing. *)
Theorem handleDelete_declined_does_nothing (w : World) (n : nat) (s : State)
    (id : Id) :
  reply w n (WindowConfirm (lit "Delete this user?")) = false ->
  let o := run w (handleDelete id) n s in
  final o = s /\ countRequests anyRequest (trace o) = 0
  /\ completion o = Normal tt.
Proof.
  intros Hno. unfold handleDelete. cbn -[lit]. rewrite Hno. repeat split.
Qed.

Lemma handleDelete_declined_does_nothing_witness :
  reply Demo.declining 0 (WindowConfirm (lit "Delete this user?")) = false
  /\ users (final (run Demo.declining (handleDelete (IdStr (lit "1"))) 0
                       (setUsers [Demo.alice; Demo.bob] Demo.start)))
     = [Demo.alice; Demo.bob].
Proof.
  split; [reflexivity|].
  exact (f_equal users
           (proj1 (@handleDelete_declined_does_nothing Demo.declining 0
                     (setUsers [Demo.alice; Demo.bob] Demo.start)
                     (IdStr (lit "1")) eq_refl))).
Defined.

Lemma filter_absent_id (id : Id) (us : list User) :
  ~ In id (map user_id us) ->
  filter (fun u => negb (strict_eq (user_id u) id)) us = us.
Proof.
  induction us as [|u us IH]; cbn; intros Hno; [reflexivity|].
  unfold strict_eq at 1. destruct (Id_eq_dec (user_id u) id) as [E | _].
  - exfalso. apply Hno. now left.
  - cbn. f_equal. apply IH. intros H. apply Hno. now right.
Qed.

Lemma filter_unique_id (id : Id) (us : list User) :
  NoDup (map user_id us) ->
  In id (map user_id us) ->
  S (List.length (filter (fun u => negb (strict_eq (user_id u) id)) us))
  = List.length us.
Proof.
  induction us as [|u us IH]; cbn [map filter]; intros Hnd Hin;
    [destruct Hin|].
  inversion Hnd as [|? ? Hnotin Hnd']; subst.
  unfold strict_eq at 1. destruct (Id_eq_dec (user_id u) id) as [E | NE].
  - cbn. subst id. now rewrite filter_absent_id.
  - cbn. f_equal. apply IH; [exact Hnd'|].
    destruct Hin as [E | Hin]; [contradiction | exact Hin].
Qed.

(** X8.  After a confirmed delete whose request is answered, the form is
    no longer busy; when no listed user has the id the list is as it was,
    and when the ids of the list are distinct and one of them is the id,
    the list is exactly one user shorter. *)
Theorem handleDelete_removes_exactly_one (w : World) (n : nat) (s : State)
    (id : Id) (res : Response unit) :
  reply w n (WindowConfirm (lit "Delete this user?")) = true ->
  answer w (S n) (DeleteUser id) = Some res ->
  let held := meanwhile w (S n) (setFormLoading true s) in
  let o := run w (handleDelete id) n s in
  formLoading (final o) = false
  /\ (~ In id (map user_id (users held)) -> users (final o) = users held)
  /\ (NoDup (map user_id (users held)) ->
      In id (map user_id (users held)) ->
      S (List.length (users (final o))) = List.length (users held)).
Proof.
  intros Hyes Hres. unfold handleDelete. cbn -[filter lit]. rewrite Hyes.
  cbn -[filter lit]. rewrite Hres. cbn -[filter lit].
  split; [reflexivity|]. split.
  - apply filter_absent_id.
  - apply filter_unique_id.
Qed.

Lemma handleDelete_removes_exactly_one_witness :
  reply (Demo.world Demo.up) 0 (WindowConfirm (lit "Delete this user?")) = true
  /\ List.length
       (users (final (run (Demo.world Demo.up) (handleDelete (IdStr (lit "2")))
                          0 (setUsers [Demo.alice; Demo.bob] Demo.start))))
     = 1.
Proof.
  split; [reflexivity|].
  refine (eq_add_S _ _
            (proj2 (proj2 (@handleDelete_removes_exactly_one
                             (Demo.world Demo.up) 0
                             (setUsers [Demo.alice; Demo.bob] Demo.start)
                             (IdStr (lit "2")) (mkResponse true (Some tt))
                             eq_refl eq_refl)) _ _)).
  - repeat constructor; cbn; intuition discriminate.
  - right. left. reflexivity.
Defined.

(* ------------------------------------------------------------------ *)
(** ** Submitting the user form                                         *)
(* ------------------------------------------------------------------ *)

(** The avatar [handleSubmit] sends: the preview when there is one, the
    generated address of the trimmed name otherwise. *)
Lemma avatarUrlForApi_eq (platform : Platform) (s : State) (encoded : jsstring) :
  blank (name s) = false ->
  truthy_opt (avatarPreview s) = true
  \/ encodeURIComponent (trim (name s)) = Some encoded ->
  (if truthy_opt (avatarPreview s) then Ret (avatarPreview s)
   else generateAvatarUrl (Some (trim (name s))))
  = Ret (or_else (avatarPreview s) (Some (avatarUrl encoded))).
Proof.
  intros Hb Hav. unfold or_else.
  destruct (truthy_opt (avatarPreview s)); [reflexivity|].
  destruct Hav as [Hav | Hav]; [discriminate|].
  apply generateAvatarUrl_of_name.
  - now rewrite <- missing_iff_blank, missing_trim, missing_iff_blank.
  - now rewrite trim_idempotent.
Qed.

(** X4.  Submitting the form for a new user (no edit in progress, name
    and email not blank) posts a user with the trimmed name and email,
    the reading of [Date.now()] as id, the name lower-cased and stripped
    of whitespace as username and the current time as [createdAt]; when
    the request succeeds the user the server answered with is put at the
    head of the list, the form is emptied and is no longer busy. *)
Theorem handleSubmit_creates_user (platform : Platform) (w : World) (n : nat)
    (s : State) (encoded : jsstring) (now : Z) (createdAt : jsstring)
    (created : User) :
  blank (name s) = false ->
  blank (email s) = false ->
  editing s = None ->
  truthy_opt (avatarPreview s) = true
  \/ encodeURIComponent (trim (name s)) = Some encoded ->
  reply w n DateNow = now ->
  reply w (S n) DateToISOString = createdAt ->
  let avatar := or_else (avatarPreview s) (Some (avatarUrl encoded)) in
  let newUser := submitNewUser s (IdNum now) avatar createdAt in
  accepted (answer w (S (S n)) (PostUser newUser)) = Some created ->
  let held := meanwhile w (S (S n)) (setFormLoading true s) in
  let o := run w (handleSubmit s) n s in
  trace o = [Called DateNow; Called DateToISOString;
             Suspended (setFormLoading true s) [PostUser newUser] held]
  /\ users (final o) = created :: users held
  /\ final o
     = setFormLoading false (formCleared (setUsers (created :: users held) held)).
Proof.
  intros Hn He Hed Hav Hnow Hiso avatar newUser Hacc held o.
  apply accepted_Some in Hacc.
  unfold o, handleSubmit. rewrite !missing_iff_blank, Hn, He.
  cbn [orb]. rewrite (@avatarUrlForApi_eq platform s encoded Hn Hav), Hed.
  cbn -[lit or_else avatarUrl]. rewrite Hnow, Hiso.
  fold avatar. fold (submitNewUser s (IdNum now) avatar createdAt).
  fold newUser. rewrite Hacc. cbn -[lit or_else avatarUrl].
  repeat split.
Qed.

Lemma handleSubmit_creates_user_witness :
  blank (name Demo.newCarol) = false
  /\ users (final (run (Demo.world Demo.up)
                    (@handleSubmit Demo.platform Demo.newCarol) 0
                    Demo.newCarol)) = [Demo.bob].
Proof.
  split; [reflexivity|].
  exact (proj1 (proj2
           (@handleSubmit_creates_user Demo.platform (Demo.world Demo.up) 0
              Demo.newCarol (lit "Carol") 1700000000000
              (lit "2025-01-01T00:00:00.000Z") Demo.bob
              eq_refl eq_refl eq_refl (or_intror eq_refl) eq_refl eq_refl
              eq_refl))).
Defined.

Lemma replace_absent_id (i : Id) (updated : User) (us : list User) :
  ~ In i (map user_id us) ->
  map (fun u => if strict_eq (user_id u) i then updated else u) us = us.
Proof.
  induction us as [|u us IH]; cbn [map]; intros Hno; [reflexivity|].
  unfold strict_eq at 1. destruct (Id_eq_dec (user_id u) i) as [E | _].
  - exfalso. apply Hno. now left.
  - f_equal. apply IH. intros H. apply Hno. now right.
Qed.

Lemma In_replace_by_id (i : Id) (updated : User) (us : list User) (v : User) :
  In v (map (fun u => if strict_eq (user_id u) i then updated else u) us)
  <-> (In v us /\ user_id v <> i)
      \/ (v = updated /\ In i (map user_id us)).
Proof.
  rewrite in_map_iff. split.
  - intros (u & Hv & Hin). unfold strict_eq in Hv.
    destruct (Id_eq_dec (user_id u) i) as [E | NE]; subst v.
    + right. split; [reflexivity|]. rewrite <- E. now apply in_map.
    + left. now split.
  - intros [[Hin NE] | [-> Hin]].
    + exists v. split; [|exact Hin]. unfold strict_eq.
      now destruct (Id_eq_dec (user_id v) i).
    + apply in_map_iff in Hin as (u & Hu & Hin). exists u.
      split; [|exact Hin]. unfold strict_eq.
      now destruct (Id_eq_dec (user_id u) i).
Qed.

(** X5.  Submitting the form while editing the user with id [i] puts the
    trimmed name and email to that user's address; when the request
    succeeds every listed user with id [i] is replaced by the user the
    server answered with and all others stay in place, so the list keeps
    its length, and it stays as it was when no listed user has that
    id. *)
Theorem handleSubmit_updates_user (platform : Platform) (w : World) (n : nat)
    (s : State) (encoded : jsstring) (i : Id) (updated : User) :
  blank (name s) = false ->
  blank (email s) = false ->
  editing s = Some i ->
  truthy_opt (avatarPreview s) = true
  \/ encodeURIComponent (trim (name s)) = Some encoded ->
  let avatar := or_else (avatarPreview s) (Some (avatarUrl encoded)) in
  let payload := submitPayload s i avatar in
  accepted (answer w n (PutUser i payload)) = Some updated ->
  let held := meanwhile w n (setFormLoading true s) in
  let o := run w (handleSubmit s) n s in
  trace o = [Suspended (setFormLoading true s) [PutUser i payload] held]
  /\ List.length (users (final o)) = List.length (users held)
  /\ (forall v, In v (users (final o))
                <-> (In v (users held) /\ user_id v <> i)
                    \/ (v = updated /\ In i (map user_id (users held))))
  /\ (~ In i (map user_id (users held)) -> users (final o) = users held)
  /\ final o
     = setFormLoading false
         (formCleared
            (setUsers (map (fun u => if strict_eq (user_id u) i
                                     then updated else u) (users held))
                      held)).
Proof.
  intros Hn He Hed Hav avatar payload Hacc held o.
  apply accepted_Some in Hacc.
  unfold o, handleSubmit. rewrite !missing_iff_blank, Hn, He.
  cbn [orb]. rewrite (@avatarUrlForApi_eq platform s encoded Hn Hav), Hed.
  cbn -[lit or_else avatarUrl map]. fold avatar.
  fold (submitPayload s i avatar). fold payload. rewrite Hacc.
  cbn -[lit or_else avatarUrl map].
  split; [reflexivity|]. split; [apply length_map|].
  split; [intros v; apply In_replace_by_id|].
  split; [apply replace_absent_id | reflexivity].
Qed.

Lemma handleSubmit_updates_user_witness :
  editing (setUsers [Demo.alice; Demo.carol]
             (setEditId (Some (IdStr (lit "3"))) Demo.newCarol))
    = Some (user_id Demo.carol)
  /\ users (final (run (Demo.world Demo.up)
                    (@handleSubmit Demo.platform
                       (setUsers [Demo.alice; Demo.carol]
                          (setEditId (Some (IdStr (lit "3"))) Demo.newCarol)))
                    0
                    (setUsers [Demo.alice; Demo.carol]
                       (setEditId (Some (IdStr (lit "3"))) Demo.newCarol))))
     = [Demo.alice; Demo.bob].
Proof.
  split; [reflexivity|].
  exact (f_equal users
           (proj2 (proj2 (proj2 (proj2
              (@handleSubmit_updates_user Demo.platform (Demo.world Demo.up) 0
                 (setUsers [Demo.alice; Demo.carol]
                    (setEditId (Some (IdStr (lit "3"))) Demo.newCarol))
                 (lit "Carol") (IdStr (lit "3")) Demo.bob
                 eq_refl eq_refl eq_refl (or_intror eq_refl) eq_refl)))))).
Defined.

(** X6.  When the request of a submission fails (rejected, status not ok
    or body not parsed), whether it creates or updates, [handleSubmit]
    sets the error to ["Operation failed."], leaves the users list and
    what is typed in the form as they are, and the form is no longer
    busy. *)
Theorem handleSubmit_failure_keeps_form (platform : Platform) (w : World)
    (n : nat) (s : State) (encoded : jsstring) :
  blank (name s) = false ->
  blank (email s) = false ->
  truthy_opt (avatarPreview s) = true
  \/ encodeURIComponent (trim (name s)) = Some encoded ->
  let avatar := or_else (avatarPreview s) (Some (avatarUrl encoded)) in
  let slot := match editing s with Some _ => n | None => S (S n) end in
  match editing s with
  | Some i => accepted (answer w n (PutUser i (submitPayload s i avatar))) = None
  | None =>
      accepted (answer w (S (S n))
                  (PostUser (submitNewUser s (IdNum (reply w n DateNow)) avatar
                               (reply w (S n) DateToISOString)))) = None
  end ->
  let held := meanwhile w slot (setFormLoading true s) in
  let o := run w (handleSubmit s) n s in
  final o = setFormLoading false (setError (lit "Operation failed.") held)
  /\ users (final o) = users held
  /\ (name (final o), email (final o), editId (final o), avatarPreview (final o))
     = (name held, email held, editId held, avatarPreview held).
Proof.
  intros Hn He Hav avatar slot Hacc held o.
  unfold o, held, slot, handleSubmit. rewrite !missing_iff_blank, Hn, He.
  cbn [orb]. rewrite (@avatarUrlForApi_eq platform s encoded Hn Hav).
  fold avatar.
  destruct (editing s) as [i|]; cbn -[lit or_else avatarUrl map].
  - fold (submitPayload s i avatar).
    destruct (accepted_None _ Hacc) as [H | [[b H] | H]]; rewrite H;
      cbn -[lit]; repeat split.
  - fold (submitNewUser s (IdNum (reply w n DateNow)) avatar
                        (reply w (S n) DateToISOString)).
    destruct (accepted_None _ Hacc) as [H | [[b H] | H]]; rewrite H;
      cbn -[lit]; repeat split.
Qed.

Lemma handleSubmit_failure_keeps_form_witness :
  blank (name Demo.newCarol) = false
  /\ name (final (run (Demo.world Demo.down)
                   (@handleSubmit Demo.platform Demo.newCarol) 0 Demo.newCarol))
     = lit " Carol  ".
Proof.
  split; [reflexivity|].
  exact (f_equal name
           (proj1 (@handleSubmit_failure_keeps_form Demo.platform
                     (Demo.world Demo.down) 0 Demo.newCarol (lit "Carol")
                     eq_refl eq_refl (or_intror eq_refl) eq_refl))).
Defined.

(** X15.  Pressing [Edit] on a user that has an avatar and then
    submitting the form as filled in makes one request: a [PUT] to the
    address of that user when its id is truthy, and otherwise (the id is
    [0] or [""]) a [POST] that creates a user with a fresh
    [Date.now()] id. *)
Theorem edit_then_submit_puts_unless_id_is_falsy (platform : Platform)
    (w : World) (n : nat) (s : State) (u : User) :
  quiet w ->
  truthy_opt (user_avatar u) = true ->
  blank (user_name u) = false ->
  blank (user_email u) = false ->
  let tr := trace (session w [ClickEdit u; SubmitUserForm] n s) in
  let payload id :=
    mkUser id (trim (user_name u)) (trim (user_email u)) (user_avatar u)
           None None None None in
  if truthy_id (user_id u) then
    exists s1 s2 rest,
      tr = Suspended s1 [PutUser (user_id u) (payload (user_id u))] s2 :: rest
      /\ countRequests anyRequest rest = 0
  else
    exists s1 s2 newUser rest,
      tr = Called DateNow :: Called DateToISOString
             :: Suspended s1 [PostUser newUser] s2 :: rest
      /\ user_id newUser = IdNum (reply w n DateNow)
      /\ countRequests anyRequest rest = 0.
Proof.
  intros Hq Hav Hn He. cbn [session handler trace app].
  unfold startEdit. rewrite Hav. cbn -[lit handleSubmit].
  unfold handleSubmit. cbn [name email avatarPreview editing editId setAvatarFile
                             setAvatarPreview setEmail setName setEditId].
  rewrite !missing_iff_blank, Hn, He, Hav. cbn [orb].
  destruct (truthy_id (user_id u)); cbn -[lit]; rewrite ?Hq.
  - destruct (answer w n _) as [[[] [updated|]]|]; cbn -[lit];
      do 3 eexists; (split; [reflexivity|]); reflexivity.
  - destruct (answer w (S (S n)) _) as [[[] [created|]]|]; cbn -[lit];
      do 4 eexists; (split; [reflexivity|]); split; reflexivity.
Qed.

Lemma edit_then_submit_puts_unless_id_is_falsy_witness :
  quiet (Demo.world Demo.up)
  /\ truthy_id (user_id Demo.zero) = false
  /\ exists s1 s2 newUser rest,
       trace (session (platform := Demo.platform) (Demo.world Demo.up)
                [ClickEdit Demo.zero; SubmitUserForm] 0
                (setUsers [Demo.zero] Demo.start))
       = Called DateNow :: Called DateToISOString
           :: Suspended s1 [PostUser newUser] s2 :: rest
       /\ user_id newUser = IdNum 1700000000000
       /\ countRequests anyRequest rest = 0.
Proof.
  assert (Hq : quiet (Demo.world Demo.up)) by (intros k s; reflexivity).
  split; [exact Hq|]. split; [reflexivity|].
  exact (@edit_then_submit_puts_unless_id_is_falsy Demo.platform
           (Demo.world Demo.up) 0 (setUsers [Demo.zero] Demo.start)
           Demo.zero Hq eq_refl eq_refl eq_refl).
Defined.

(* ------------------------------------------------------------------ *)
(** ** More on posts                                                    *)
(* ------------------------------------------------------------------ *)

(** X9.  [loadPosts] stores the whole list the posts endpoint answers
    with when the status is ok and the body parses; in every other case
    (rejected, status not ok, body not parsed) it leaves the posts as they
    are and sets the error to ["Failed to load posts."].  [held] is the
    state when the request settles. *)
Theorem loadPosts_stores_all_or_reports (w : World) (n : nat) (s : State)
    (userId : Id) :
  let held := meanwhile w n (setError (lit "") (setLoadingPosts true s)) in
  let o := run w (loadPosts userId) n s in
  match accepted (answer w n (GetPosts userId)) with
  | Some data =>
      final o = setLoadingPosts false (setPosts data held)
      /\ trace o = [Suspended (setError (lit "") (setLoadingPosts true s))
                              [GetPosts userId] held]
  | None =>
      final o = setLoadingPosts false
                  (setError (lit "Failed to load posts.") held)
      /\ posts (final o) = posts held
      /\ countRequests anyRequest (trace o) = 1
  end.
Proof.
  unfold loadPosts. cbn -[lit].
  destruct (answer w n (GetPosts userId)) as [[[] [data|]]|]; cbn -[lit];
    repeat split.
Qed.

(** X11.  When the handlers run one after another, opening the posts of
    a user [u] shows, for as long as the load is suspended, an empty
    posts list for the selected user [u], and ends on the Posts tab with
    no albums and with the posts of the answer, or with none when the
    load failed: never with the posts that were listed before. *)
Theorem openUserPosts_shows_no_stale_posts (w : World) (n : nat) (s : State)
    (u : User) :
  quiet w ->
  let o := run w (openUserPosts u) n s in
  Forall (fun st => posts st = [] /\ selectedUser st = Some u
                    /\ loadingPosts st = true)
         (screens (trace o))
  /\ posts (final o)
     = match accepted (answer w n (GetPosts (user_id u))) with
       | Some data => data
       | None => []
       end
  /\ selectedUser (final o) = Some u
  /\ activeTab (final o) = TabPosts
  /\ albums (final o) = []
  /\ showPostForm (final o) = false
  /\ countRequests isGetPosts (trace o) = 1
  /\ countRequests anyRequest (trace o) = 1.
Proof.
  intros Hq. unfold openUserPosts, loadPosts. cbn -[lit]. rewrite Hq.
  destruct (answer w n (GetPosts (user_id u))) as [[[] [data|]]|]; cbn -[lit];
    (split; [repeat constructor|]); repeat split.
Qed.

Lemma openUserPosts_shows_no_stale_posts_witness :
  quiet (Demo.world Demo.down)
  /\ posts (final (run (Demo.world Demo.down) (openUserPosts Demo.bob) 0
                       (setPosts [Demo.hello] Demo.drafting))) = [].
Proof.
  assert (Hq : quiet (Demo.world Demo.down)) by (intros k s; reflexivity).
  split; [exact Hq|].
  exact (proj1 (proj2 (@openUserPosts_shows_no_stale_posts
                         (Demo.world Demo.down) 0
                         (setPosts [Demo.hello] Demo.drafting) Demo.bob Hq))).
Defined.

(** X1.  When the title or the body of the post form is empty or
    whitespace-only, [createPost] makes no request and no call, sets the
    error to ["Title and body are required"] and changes nothing else. *)
Theorem createPost_rejects_blank_fields (w : World) (n : nat) (s : State) :
  blank (postTitle s) = true \/ blank (postBody s) = true ->
  let o := run w (createPost s) n s in
  trace o = []
  /\ final o = setError (lit "Title and body are required") s
  /\ completion o = Normal tt.
Proof.
  intros Hblank. unfold createPost.
  assert (Hmiss : missing (postTitle s) || missing (postBody s) = true).
  { rewrite !missing_iff_blank. destruct Hblank as [-> | ->];
      [reflexivity | apply orb_true_r]. }
  rewrite Hmiss. repeat split.
Qed.

Lemma createPost_rejects_blank_fields_witness :
  (blank (postTitle (setPostBody (lit "   ") Demo.drafting)) = true
   \/ blank (postBody (setPostBody (lit "   ") Demo.drafting)) = true)
  /\ trace (run (Demo.world Demo.up)
              (createPost (setPostBody (lit "   ") Demo.drafting)) 0
              (setPostBody (lit "   ") Demo.drafting)) = [].
Proof.
  assert (H : blank (postTitle (setPostBody (lit "   ") Demo.drafting)) = true
              \/ blank (postBody (setPostBody (lit "   ") Demo.drafting)) = true)
    by (right; reflexivity).
  split; [exact H|].
  exact (proj1 (@createPost_rejects_blank_fields (Demo.world Demo.up) 0
                  (setPostBody (lit "   ") Demo.drafting) H)).
Defined.

(** X2.  When the create-post request fails (rejected, status not ok or
    body not parsed), [createPost] sets the error to
    ["Failed to create post."], is no longer posting, and leaves the
    posts, the draft and the visibility of the form as they are. *)
Theorem createPost_failure_keeps_draft (w : World) (n : nat) (s : State)
    (u : User) :
  blank (postTitle s) = false ->
  blank (postBody s) = false ->
  selectedUser s = Some u ->
  accepted (answer w n (PostPost (mkNewPost (trim (postTitle s))
                                            (trim (postBody s)) (user_id u))))
    = None ->
  let held := meanwhile w n (setPostLoading true s) in
  let o := run w (createPost s) n s in
  final o = setPostLoading false (setError (lit "Failed to create post.") held)
  /\ posts (final o) = posts held
  /\ (postTitle (final o), postBody (final o), showPostForm (final o))
     = (postTitle held, postBody held, showPostForm held).
Proof.
  intros Ht Hb Hu Hacc. unfold createPost, selectedUser_id.
  rewrite !missing_iff_blank, Ht, Hb, Hu. cbn -[lit].
  destruct (accepted_None _ Hacc) as [H | [[b H] | H]]; rewrite H; cbn -[lit];
    repeat split.
Qed.

Lemma createPost_failure_keeps_draft_witness :
  blank (postTitle Demo.drafting) = false
  /\ postTitle (final (run (Demo.world Demo.down) (createPost Demo.drafting) 0
                           Demo.drafting)) = lit "Draft".
Proof.
  split; [reflexivity|].
  exact (f_equal postTitle
           (proj1 (@createPost_failure_keeps_draft (Demo.world Demo.down) 0
                     Demo.drafting Demo.alice eq_refl eq_refl eq_refl eq_refl))).
Defined.



(** X12.  When the handlers run one after another, a post that was just
    created stays at the head of the list when the Posts tab is selected
    again: the list is not empty, so the tab does not load, and the
    creation remains the only request. *)
Theorem created_post_survives_posts_tab (platform : Platform) (w : World)
    (n : nat) (s : State) (u : User) (created : Post) :
  quiet w ->
  blank (postTitle s) = false ->
  blank (postBody s) = false ->
  selectedUser s = Some u ->
  accepted (answer w n (PostPost (mkNewPost (trim (postTitle s))
                                            (trim (postBody s)) (user_id u))))
    = Some created ->
  let o := session w [SubmitPostForm; SelectPostsTab] n s in
  posts (final o)
    = post_with_id created (IdNum (reply w (S n) DateNow)) :: posts s
  /\ countRequests anyRequest (trace o) = 1
  /\ countRequests isGetPosts (trace o) = 0.
Proof.
  intros Hq Ht Hb Hu Hacc. apply accepted_Some in Hacc.
  cbn [session handler]. unfold createPost, selectedUser_id.
  rewrite !missing_iff_blank, Ht, Hb, Hu. cbn -[lit]. rewrite Hacc.
  cbn -[lit]. rewrite Hq. repeat split.
Qed.

Lemma created_post_survives_posts_tab_witness :
  quiet (Demo.world Demo.up)
  /\ countRequests isGetPosts
       (trace (session (platform := Demo.platform) (Demo.world Demo.up)
                 [SubmitPostForm; SelectPostsTab] 0 Demo.drafting)) = 0.
Proof.
  assert (Hq : quiet (Demo.world Demo.up)) by (intros k s; reflexivity).
  split; [exact Hq|].
  exact (proj2 (proj2 (@created_post_survives_posts_tab Demo.platform
                         (Demo.world Demo.up) 0 Demo.drafting Demo.alice
                         Demo.hello Hq eq_refl eq_refl eq_refl eq_refl))).
Defined.

(* ------------------------------------------------------------------ *)
(** ** The avatar file and the theme                                    *)
(* ------------------------------------------------------------------ *)

(** X13.  A file whose type starts with ["image/"] and whose size is at
    most 5 * 1024 * 1024 bytes, that size included, is read once: when
    the read succeeds its data URL becomes the preview, the file is kept
    and the error is cleared; when it fails the error becomes
    ["Failed to read file."] and preview and file stay as they are. *)
Theorem processFile_reads_valid_image (w : World) (n : nat) (s : State)
    (f : File) :
  startsWith (file_type f) (lit "image/") = true ->
  (file_size f <= 5 * 1024 * 1024)%N ->
  let held := meanwhile w n s in
  let o := run w (processFile (Some f)) n s in
  trace o = [Suspended s [ReadAsDataURL f] held]
  /\ final o
     = match answer w n (ReadAsDataURL f) with
       | Some result =>
           setError (lit "") (setAvatarFile (Some f)
                                (setAvatarPreview (Some result) held))
       | None => setError (lit "Failed to read file.") held
       end.
Proof.
  intros Himg Hsize. unfold processFile, MAX_AVATAR_BYTES. rewrite Himg.
  apply N.ltb_ge in Hsize. rewrite Hsize. cbn -[lit].
  destruct (answer w n (ReadAsDataURL f)); split; reflexivity.
Qed.

Lemma processFile_reads_valid_image_witness :
  (file_size Demo.largestPng <= 5 * 1024 * 1024)%N
  /\ avatarFile (final (run (Demo.world Demo.up)
                          (processFile (Some Demo.largestPng)) 0 Demo.start))
     = Some Demo.largestPng.
Proof.
  assert (H : (file_size Demo.largestPng <= 5 * 1024 * 1024)%N)
    by (intros E; discriminate E).
  split; [exact H|].
  exact (f_equal avatarFile
           (proj2 (@processFile_reads_valid_image (Demo.world Demo.up) 0
                     Demo.start Demo.largestPng eq_refl H))).
Defined.

(** X16.  Toggling the theme twice brings the state back to what it
    was, and each toggle stores the mode it switches to under
    ["darkMode"], so that the value stored last is the mode shown. *)
Theorem toggleDarkMode_twice (platform : Platform) (w : World) (n : nat)
    (s : State) :
  let o := session w [ToggleDarkMode; ToggleDarkMode] n s in
  final o = s
  /\ trace o
     = [Called (LocalStorageSetItem (lit "darkMode")
                  (if darkMode s then lit "false" else lit "true"));
        Called (LocalStorageSetItem (lit "darkMode")
                  (if darkMode s then lit "true" else lit "false"))].
Proof.
  destruct s. cbn -[lit]. destruct darkMode0; split; reflexivity.
Qed.

(* ------------------------------------------------------------------ *)
(** ** What the modal leaves alone                                      *)
(* ------------------------------------------------------------------ *)

Lemma countRequests_app (p : forall X : Set, Req X -> bool)
    (tr1 tr2 : list Entry) :
  countRequests p (tr1 ++ tr2) = countRequests p tr1 + countRequests p tr2.
Proof. unfold countRequests. now rewrite map_app, list_sum_app. Qed.

(** In a quiet world, what every update of a program preserves and what
    none of its requests is, its run preserves and does not request. *)
Lemma run_tame_frame (A T : Type) (I : State -> T)
    (U : (State -> State) -> Prop) (R : forall X : Set, Req X -> bool)
    (w : World) (p : Proc A) :
  quiet w ->
  (forall f, U f -> forall s, I (f s) = I s) ->
  Tame U R p ->
  forall n s,
    I (final (run w p n s)) = I s
    /\ countRequests R (trace (run w p n s)) = 0.
Proof.
  intros Hq HU Ht.
  induction Ht as [a | e | f k Hf _ IH | k _ IH | X c k _ IH | X r k Hr _ IH
                   | X rs k Hrs _ IH]; intros n s; cbn [run].
  - split; reflexivity.
  - split; reflexivity.
  - destruct (IH n (f s)) as (Hi & Hc). rewrite Hi, Hc, (HU f Hf). auto.
  - apply IH.
  - destruct (IH (reply w n c) (S n) s) as (Hi & Hc). cbn. auto.
  - rewrite Hq. destruct (IH (answer w n r) (S n) s) as (Hi & Hc).
    cbn [logged final trace]. split; [assumption|].
    change (Suspended s [r] s :: ?t) with ([Suspended s [r] s] ++ t).
    rewrite countRequests_app, Hc. cbn. now rewrite Hr.
  - rewrite Hq.
    destruct (IH (answers w n rs) (n + List.length rs) s) as (Hi & Hc).
    cbn [logged final trace]. split; [assumption|].
    change (Suspended s rs s :: ?t) with ([Suspended s rs s] ++ t).
    rewrite countRequests_app, Hc. cbn. now rewrite Hrs.
Qed.

Lemma no_users_request_among_photos (data : list Album) :
  filter (isUsersRequest (X:=Fetched (list Photo)))
         (map (fun album => GetPhotos (album_id album) 1) data) = [].
Proof. induction data as [|a data IH]; [reflexivity | exact IH]. Qed.

Ltac frame :=
  repeat (cbn -[lit missing];
          match goal with
          | |- forall _, _ => intro
          | |- keepsUsers _ => intro; repeat split
          | |- _ = _ => reflexivity
          | |- Tame _ _ _ => constructor
          | |- context [match ?x with _ => _ end] => destruct x
          end).

Lemma loadAlbums_keeps_users (userId : Id) :
  Tame keepsUsers isUsersRequest (loadAlbums userId).
Proof.
  unfold loadAlbums, Promise_all_map, fetch, set.
  cbn -[lit mapM withThumb].
  apply Tame_Upd; [intro; repeat split|].
  apply Tame_Upd; [intro; repeat split|].
  apply Tame_Await; [reflexivity|].
  intros [[[] [data|]]|]; cbn -[lit mapM withThumb]; try (frame; fail).
  constructor; [apply no_users_request_among_photos|]. intros xs.
  destruct (callbacks_settle (combine data xs)) as [[ys ->] | [e ->]]; frame.
Qed.

Lemma modal_handler_keeps_users (platform : Platform) (ev : UIEvent)
    (s : State) :
  isModalAction ev = true ->
  Tame keepsUsers isUsersRequest (handler ev s).
Proof.
  intros Hin. destruct ev; try discriminate Hin; cbn [handler].
  all: try match goal with
           | |- Tame _ _ (selectAlbumsTab _) =>
               unfold selectAlbumsTab, selectedUser_id, set; cbn [bind];
               apply Tame_Upd; [intro; repeat split|];
               destruct (albums s); [|constructor];
               destruct (selectedUser s); cbn [bind];
               [apply loadAlbums_keeps_users | constructor]
           end.
  all: unfold openUserPosts, closePosts, selectPostsTab, showNewPostForm,
         createPost, cancelPostForm, loadPosts, selectedUser_id,
         console_error, fetch, fetched, json, throw, set;
    frame.
Qed.

(** X17.  When the handlers run one after another, nothing done in the
    modal (opening it, closing it, selecting a tab, showing, filling,
    submitting or cancelling the post form) changes the users list or
    what is typed in the user form, and none of it calls the users
    endpoint. *)
Theorem modal_actions_keep_users (platform : Platform) (w : World)
    (evs : list UIEvent) (n : nat) (s : State) :
  quiet w ->
  forallb isModalAction evs = true ->
  let o := session w evs n s in
  users (final o) = users s
  /\ (name (final o), email (final o), editId (final o),
      avatarPreview (final o), avatarFile (final o))
     = (name s, email s, editId s, avatarPreview s, avatarFile s)
  /\ countRequests isUsersRequest (trace o) = 0.
Proof.
  intros Hq. revert n s. induction evs as [|ev evs IH]; intros n s Hall.
  - repeat split.
  - cbn [forallb] in Hall. apply andb_true_iff in Hall as [Hev Hall].
    destruct (@run_tame_frame unit _
                (fun st => (users st, (name st, email st, editId st,
                                       avatarPreview st, avatarFile st)))
                keepsUsers isUsersRequest w (handler ev s) Hq) with (n := n)
                (s := s) as (Hi & Hc).
    { intros f Hf st. destruct (Hf st) as (-> & -> & -> & -> & -> & ->).
      reflexivity. }
    { now apply modal_handler_keeps_users. }
    destruct (IH (next (run w (handler ev s) n s))
                 (final (run w (handler ev s) n s)) Hall) as (Hu & Hf & Hc').
    cbn [session final trace]. cbv zeta in Hu, Hf, Hc'.
    rewrite countRequests_app, Hc, Hc', Hu, Hf.
    injection Hi as -> -> -> -> -> ->. repeat split.
Qed.

Lemma modal_actions_keep_users_witness :
  quiet (Demo.world Demo.up)
  /\ users (final (session (platform := Demo.platform) (Demo.world Demo.up)
                     [ClickPosts Demo.alice; AddNewPost;
                      ChangePostTitle (lit "Hi"); ChangePostBody (lit "there");
                      SubmitPostForm; SelectAlbumsTab; CloseModal] 0
                     (setUsers [Demo.alice; Demo.bob] Demo.newCarol)))
     = [Demo.alice; Demo.bob].
Proof.
  assert (Hq : quiet (Demo.world Demo.up)) by (intros k s; reflexivity).
  split; [exact Hq|].
  exact (proj1 (@modal_actions_keep_users Demo.platform (Demo.world Demo.up)
                  [ClickPosts Demo.alice; AddNewPost;
                   ChangePostTitle (lit "Hi"); ChangePostBody (lit "there");
                   SubmitPostForm; SelectAlbumsTab; CloseModal] 0
                  (setUsers [Demo.alice; Demo.bob] Demo.newCarol) Hq eq_refl)).
Defined.

(* ------------------------------------------------------------------ *)
(** ** No handler is left hanging                                       *)
(* ------------------------------------------------------------------ *)

Lemma modalOpen_selected (s : State) :
  modalOpen s = true -> exists u, selectedUser s = Some u.
Proof.
  unfold modalOpen. destruct (selectedUser s) as [u|]; [eauto | discriminate].
Qed.

Lemma onPostsTab_selected (s : State) :
  onPostsTab s = true -> exists u, selectedUser s = Some u.
Proof.
  unfold onPostsTab. destruct (activeTab s); [|discriminate].
  apply modalOpen_selected.
Qed.

(** [loadAlbums] catches whatever goes wrong and, in a quiet world,
    touches no other flag than its own, which it leaves cleared. *)
Lemma loadAlbums_settles (w : World) (n : nat) (s : State) (userId : Id) :
  let o := run w (loadAlbums userId) n s in
  completion o = Normal tt
  /\ (quiet w ->
      loadingAlbums (final o) = false
      /\ loadingUsers (final o) = loadingUsers s
      /\ loadingPosts (final o) = loadingPosts s
      /\ postLoading (final o) = postLoading s
      /\ formLoading (final o) = formLoading s).
Proof.
  unfold loadAlbums, Promise_all_map. cbn -[lit mapM withThumb].
  destruct (answer w n (GetAlbums userId)) as [[[] [data|]]|];
    cbn -[lit mapM withThumb];
    try (split; [reflexivity | intros Hq; rewrite !Hq; repeat split]).
  destruct (callbacks_settle
              (combine data
                 (answers w (S n)
                    (map (fun album => GetPhotos (album_id album) 1) data))))
    as [[ys ->] | [e ->]]; cbn -[lit];
    (split; [reflexivity | intros Hq; rewrite !Hq; repeat split]).
Qed.

Ltac settle :=
  repeat (cbn -[lit missing trim];
          match goal with
          | |- context [match ?x with _ => _ end] => destruct x eqn:?
          end).

(** Every handler whose control is offered completes, or stops at the
    [URIError] of an [encodeURIComponent] that failed. *)
Lemma handler_completes (platform : Platform) (w : World) (ev : UIEvent)
    (n : nat) (s : State) :
  offered s ev = true ->
  let o := run w (handler ev s) n s in
  completion o = Normal tt
  \/ (completion o = Uncaught URIError
      /\ exists x, encodeURIComponent x = None).
Proof.
  intros Hoff.
  destruct ev; cbn [handler offered] in *;
    try (apply andb_true_iff in Hoff as [Hoff _];
         apply andb_true_iff in Hoff as [Hoff _];
         apply onPostsTab_selected in Hoff as [u Hu]);
    try (apply modalOpen_selected in Hoff as [u Hu]);
    try clear Hoff.
  all: try match goal with
           | |- context [selectAlbumsTab] =>
               unfold selectAlbumsTab, selectedUser_id; rewrite Hu;
               cbn [bind set run]; destruct (albums s);
               [left; apply loadAlbums_settles | left; reflexivity]
           end.
  all: unfold loadUsers, toggleDarkMode, handleFileChange, handleDrop,
         handleDragOver, handleDragLeave, removeAvatar, handleSubmit,
         cancelEdit, resetForm, startEdit, handleDelete, openUserPosts,
         closePosts, selectPostsTab, showNewPostForm, createPost,
         cancelPostForm, processFile, loadPosts, selectedUser_id,
         generateAvatarUrl, console_error, fetch, fetched, json, throw, set;
    rewrite ?Hu; settle;
    first [left; reflexivity
          | right; split; [reflexivity | eexists; eassumption]].
Qed.

(** In a quiet world a handler whose control is offered leaves every
    loading flag cleared that was cleared before, the flag of the user
    form provided the handler completed. *)
Lemma handler_idle (platform : Platform) (w : World) (ev : UIEvent) (n : nat)
    (s : State) :
  quiet w ->
  offered s ev = true ->
  idle s ->
  let o := run w (handler ev s) n s in
  loadingUsers (final o) = false /\ loadingPosts (final o) = false
  /\ loadingAlbums (final o) = false /\ postLoading (final o) = false
  /\ (completion o = Normal tt -> formLoading (final o) = false).
Proof.
  intros Hq Hoff (H1 & H2 & H3 & H4 & H5).
  destruct ev; cbn [handler offered] in *;
    try (apply andb_true_iff in Hoff as [Hoff _];
         apply andb_true_iff in Hoff as [Hoff _];
         apply onPostsTab_selected in Hoff as [u Hu]);
    try (apply modalOpen_selected in Hoff as [u Hu]);
    try clear Hoff.
  all: try match goal with
           | |- context [selectAlbumsTab] =>
               unfold selectAlbumsTab, selectedUser_id; rewrite Hu;
               cbn [bind set run]; destruct (albums s);
               [destruct (loadAlbums_settles w n (setActiveTab TabAlbums s)
                            (user_id u)) as (_ & Hs);
                destruct (Hs Hq) as (-> & -> & -> & -> & ->)
               |]; cbn; auto
           end.
  all: unfold loadUsers, toggleDarkMode, handleFileChange, handleDrop,
         handleDragOver, handleDragLeave, removeAvatar, handleSubmit,
         cancelEdit, resetForm, startEdit, handleDelete, openUserPosts,
         closePosts, selectPostsTab, showNewPostForm, createPost,
         cancelPostForm, processFile, loadPosts, selectedUser_id,
         generateAvatarUrl, console_error, fetch, fetched, json, throw, set;
    rewrite ?Hu; settle; rewrite ?Hq; cbn;
    repeat split; try assumption; try reflexivity; intros Hc;
    first [assumption | discriminate Hc].
Qed.

(** X18.  A handler whose control is offered by the page never ends in
    an uncaught exception other than the [URIError] of
    [encodeURIComponent]: every failure of a request is caught, and
    [selectedUser.id] is only read when a user is selected.  Where
    [encodeURIComponent] never fails, every such handler completes. *)
Theorem offered_handlers_catch_failures (platform : Platform) (w : World)
    (ev : UIEvent) (n : nat) (s : State) :
  offered s ev = true ->
  let o := run w (handler ev s) n s in
  (completion o = Normal tt \/ completion o = Uncaught URIError)
  /\ ((forall x, encodeURIComponent x <> None) -> completion o = Normal tt).
Proof.
  intros Hoff o.
  destruct (@handler_completes platform w ev n s Hoff) as [Hc | (Hc & x & Hx)].
  - split; [now left | now intros _].
  - split; [now right|]. intros Henc. now destruct (Henc x).
Qed.

Lemma offered_handlers_catch_failures_witness :
  offered Demo.drafting SubmitPostForm = true
  /\ completion (run (Demo.world Demo.down)
                   (handler (platform := Demo.platform) SubmitPostForm
                            Demo.drafting) 0 Demo.drafting)
     = Normal tt.
Proof.
  split; [reflexivity|].
  refine (proj2 (@offered_handlers_catch_failures Demo.platform
                   (Demo.world Demo.down) SubmitPostForm 0 Demo.drafting
                   eq_refl) _).
  intros x E. discriminate E.
Defined.

(** X19.  When the handlers run one after another and
    [encodeURIComponent] never fails, a page on which nothing is loading
    or being submitted is in that condition again after any sequence of
    actions each of which was offered when it was taken: no handler
    leaves its loading flag set. *)
Theorem offered_session_ends_idle (platform : Platform) (w : World)
    (evs : list UIEvent) (n : nat) (s : State) :
  quiet w ->
  (forall x, encodeURIComponent x <> None) ->
  offeredAll w evs n s = true ->
  idle s ->
  idle (final (session w evs n s)).
Proof.
  intros Hq Henc. revert n s.
  induction evs as [|ev evs IH]; intros n s Hoff Hidle; [exact Hidle|].
  cbn [offeredAll] in Hoff. apply andb_true_iff in Hoff as [Hev Hoff].
  cbn [session final]. apply IH; [exact Hoff|].
  destruct (@handler_idle platform w ev n s Hq Hev Hidle)
    as (H1 & H2 & H3 & H4 & H5).
  repeat split; try assumption. apply H5.
  now apply (@offered_handlers_catch_failures platform w ev n s Hev).
Qed.

Lemma offered_session_ends_idle_witness :
  quiet (Demo.world Demo.down)
  /\ idle (final (session (platform := Demo.platform) (Demo.world Demo.down)
                    [Mount; ChangeName (lit "Dan");
                     ChangeEmail (lit "dan@example.org"); SubmitUserForm]
                    0 Demo.start)).
Proof.
  assert (Hq : quiet (Demo.world Demo.down)) by (intros k s; reflexivity).
  split; [exact Hq|].
  refine (@offered_session_ends_idle Demo.platform (Demo.world Demo.down)
            [Mount; ChangeName (lit "Dan");
             ChangeEmail (lit "dan@example.org"); SubmitUserForm]
            0 Demo.start Hq _ eq_refl _).
  - intros x E. discriminate E.
  - repeat split.
Defined.

(* ------------------------------------------------------------------ *)
(** ** The avatar shown                                                 *)
(* ------------------------------------------------------------------ *)

(** X21.  The letter of [generateLetterAvatar] is never empty, and its
    hue is a number below 360, never [NaN]. *)
Theorem generateLetterAvatar_hue_in_range (casing : Casing) (dark : bool)
    (name : option jsstring) :
  la_letter (generateLetterAvatar dark name) <> []
  /\ exists h, la_hue (generateLetterAvatar dark name) = Some h /\ (h < 360)%N.
Proof.
  unfold generateLetterAvatar. cbn -[lit N.modulo].
  destruct (truthy _) eqn:Ht.
  - destruct (match name with Some nm => _ | None => _ end) as [|c l];
      [discriminate Ht|].
    split; [discriminate|]. eexists. split; [reflexivity|].
    now apply N.mod_lt.
  - split; [discriminate|]. eexists. split; [reflexivity|]. reflexivity.
Qed.

(** X20.  What [Avatar] shows, when it renders, follows the avatar and
    the name: the saved image exactly when the avatar is not blank, with
    the generated address (or the empty string) to fall back on;
    otherwise the image generated for the name exactly when the name is
    not blank; and a letter only when both are blank or missing, in which
    case the letter is ["?"] on hue 171. *)
Theorem Avatar_fallback_chain (platform : Platform) (casing : Casing)
    (dark : bool) (name avatar : option jsstring) (view : AvatarView) :
  toUpperCase (lit "") = lit "" ->
  Avatar dark name avatar = Ret view ->
  match av_content view with
  | SavedImage src _ =>
      exists a, avatar = Some a /\ src = trim a /\ blank a = false
                /\ av_background view = None
  | GeneratedImage src =>
      absent avatar = true
      /\ exists nm encoded,
           name = Some nm /\ blank nm = false
           /\ encodeURIComponent (trim nm) = Some encoded
           /\ src = avatarUrl encoded
  | Letter l =>
      absent avatar = true /\ absent name = true /\ l = lit "?"
      /\ av_background view
         = Some (Some 171%N, if dark then (50, 30)%N else (70, 80)%N)
  end.
Proof.
  intros Hup. unfold Avatar, generateAvatarUrl, generateLetterAvatar, absent.
  assert (Hsaved : forall a, match trim a with
                             | [] => blank a = true
                             | _ :: _ => blank a = false
                             end).
  { intros a. destruct (trim a) eqn:E.
    - now apply trim_nil_iff.
    - destruct (blank a) eqn:B; [|reflexivity].
      apply trim_nil_iff in B. congruence. }
  destruct name as [nm|]; [rewrite missing_iff_blank; destruct (blank nm) eqn:Hb|].
  - (* a blank name *)
    apply trim_nil_iff in Hb as Ht. rewrite Ht. cbn [charAt0].
    change (toUpperCase [] = []) in Hup. rewrite !Hup.
    cbn -[lit trim]. intros H. injection H as <-.
    destruct avatar as [a|]; cbn -[lit trim].
    + specialize (Hsaved a). destruct (trim a) eqn:E; cbn -[lit trim].
      * repeat split; assumption.
      * exists a. repeat split; [now rewrite E | assumption].
    + repeat split.
  - (* a name to encode *)
    destruct (encodeURIComponent (trim nm)) as [encoded|] eqn:He;
      [|discriminate].
    cbn -[lit trim avatarUrl]. intros H. injection H as <-.
    destruct avatar as [a|]; cbn -[lit trim avatarUrl or_else].
    + specialize (Hsaved a). destruct (trim a) eqn:E;
        cbn -[lit trim avatarUrl or_else].
      * split; [assumption|]. exists nm, encoded. repeat split; assumption.
      * exists a. repeat split; [now rewrite E | assumption].
    + split; [reflexivity|]. exists nm, encoded. repeat split; assumption.
  - (* no name *)
    cbn -[lit trim]. intros H. injection H as <-.
    destruct avatar as [a|]; cbn -[lit trim].
    + specialize (Hsaved a). destruct (trim a) eqn:E; cbn -[lit trim].
      * repeat split; assumption.
      * exists a. repeat split; [now rewrite E | assumption].
    + repeat split.
Qed.

Lemma Avatar_fallback_chain_witness :
  @toUpperCase Demo.casing (lit "") = lit ""
  /\ av_content
       (mkAvatarView (Some (Some 171%N, (70, 80)%N)) (Letter (lit "?")))
     = Letter (lit "?")
  /\ absent (Some (lit "  ")) = true.
Proof.
  split; [reflexivity|]. split; [reflexivity|].
  exact (proj1 (proj2
           (@Avatar_fallback_chain Demo.platform Demo.casing false
              (Some (lit "  ")) None
              (mkAvatarView (Some (Some 171%N, (70, 80)%N)) (Letter (lit "?")))
              eq_refl eq_refl))).
Defined.

(* ------------------------------------------------------------------ *)
(** ** The closed modal                                                 *)
(* ------------------------------------------------------------------ *)

(** [loadAlbums] is tame for whatever its three setters satisfy. *)
Lemma loadAlbums_tame (U : (State -> State) -> Prop) (userId : Id) :
  (forall b, U (setLoadingAlbums b)) ->
  (forall e, U (setError e)) ->
  (forall l, U (setAlbums l)) ->
  Tame U (fun _ _ => false) (loadAlbums userId).
Proof.
  intros Hl He Ha.
  unfold loadAlbums, Promise_all_map, fetch, set.
  cbn -[lit mapM withThumb].
  apply Tame_Upd; [apply Hl|]. apply Tame_Upd; [apply He|].
  apply Tame_Await; [reflexivity|].
  assert (Hfail : forall e,
             Tame U (fun _ _ => false)
                  (Upd (setError (lit "Failed to load albums."))
                       (Call (ConsoleError e)
                             (fun _ => Upd (setLoadingAlbums false) (Ret tt))))).
  { intros e. apply Tame_Upd; [apply He|]. apply Tame_Call. intros _.
    apply Tame_Upd; [apply Hl | constructor]. }
  intros [[[] [data|]]|]; cbn -[lit mapM withThumb]; try apply Hfail.
  apply Tame_AwaitAll.
  { induction data as [|a data IH]; [reflexivity | exact IH]. }
  intros xs.
  destruct (callbacks_settle (combine data xs)) as [[ys ->] | [e ->]];
    cbn -[lit]; [|apply Hfail].
  apply Tame_Upd; [apply Ha|]. apply Tame_Upd; [apply Hl | constructor].
Qed.

Lemma loadAlbums_keeps_selection (w : World) (n : nat) (s : State)
    (userId : Id) :
  quiet w ->
  selectedUser (final (run w (loadAlbums userId) n s)) = selectedUser s.
Proof.
  intros Hq.
  apply (@run_tame_frame unit _ selectedUser keepsSelection (fun _ _ => false)
           w (loadAlbums userId) Hq).
  - intros f Hf st. apply Hf.
  - apply loadAlbums_tame; intros x st; reflexivity.
Qed.

Lemma handler_keeps_closedClean (platform : Platform) (w : World)
    (ev : UIEvent) (n : nat) (s : State) :
  quiet w ->
  offered s ev = true ->
  closedClean s ->
  closedClean (final (run w (handler ev s) n s)).
Proof.
  intros Hq Hoff Hclean. unfold closedClean in *.
  destruct ev; cbn [handler offered] in *;
    try (apply andb_true_iff in Hoff as [Hoff _];
         apply andb_true_iff in Hoff as [Hoff _];
         apply onPostsTab_selected in Hoff as [u Hu]);
    try (apply onPostsTab_selected in Hoff as [u Hu]);
    try (apply modalOpen_selected in Hoff as [u Hu]);
    try clear Hoff.
  all: try match goal with
           | |- context [selectAlbumsTab] =>
               unfold selectAlbumsTab, selectedUser_id; rewrite Hu;
               cbn [bind set run]; destruct (albums s);
               [rewrite loadAlbums_keeps_selection by exact Hq|];
               cbn; rewrite Hu; discriminate
           end.
  all: unfold loadUsers, toggleDarkMode, handleFileChange, handleDrop,
         handleDragOver, handleDragLeave, removeAvatar, handleSubmit,
         cancelEdit, resetForm, startEdit, handleDelete, openUserPosts,
         closePosts, selectPostsTab, showNewPostForm, createPost,
         cancelPostForm, processFile, loadPosts, selectedUser_id,
         generateAvatarUrl, console_error, fetch, fetched, json, throw, set;
    rewrite ?Hu; settle; repeat rewrite Hq; cbn;
    intros Hnone; try (rewrite Hu in Hnone); try discriminate Hnone;
    first [now apply Hclean | repeat split].
Qed.

(** X23.  When the handlers run one after another, a page that holds no
    posts, no albums and no open post form while its modal is closed
    stays so through any sequence of actions each of which was offered
    when it was taken. *)
Theorem closed_modal_holds_nothing (platform : Platform) (w : World)
    (evs : list UIEvent) (n : nat) (s : State) :
  quiet w ->
  offeredAll w evs n s = true ->
  closedClean s ->
  closedClean (final (session w evs n s)).
Proof.
  intros Hq. revert n s.
  induction evs as [|ev evs IH]; intros n s Hoff Hclean; [exact Hclean|].
  cbn [offeredAll] in Hoff. apply andb_true_iff in Hoff as [Hev Hoff].
  cbn [session final]. apply IH; [exact Hoff|].
  now apply handler_keeps_closedClean.
Qed.

Lemma closed_modal_holds_nothing_witness :
  quiet (Demo.world Demo.up)
  /\ posts (final (session (platform := Demo.platform) (Demo.world Demo.up)
                     [Mount; ClickPosts (Demo.numbered 1); SelectAlbumsTab;
                      SelectPostsTab; AddNewPost; CloseModal] 0 Demo.start))
     = [].
Proof.
  assert (Hq : quiet (Demo.world Demo.up)) by (intros k s; reflexivity).
  split; [exact Hq|].
  refine (proj1 (@closed_modal_holds_nothing Demo.platform (Demo.world Demo.up)
                   [Mount; ClickPosts (Demo.numbered 1); SelectAlbumsTab;
                    SelectPostsTab; AddNewPost; CloseModal] 0 Demo.start
                   Hq eq_refl _ eq_refl)).
  intros _. repeat split.
Defined.

(* ------------------------------------------------------------------ *)
(** ** Ids of created posts                                             *)
(* ------------------------------------------------------------------ *)

(** X22.  [createPost] does not compare the id it gives a new post with
    the ids already listed: when a listed post has the reading of
    [Date.now()] as its id, the list ends up with two posts of that
    id. *)
Theorem createPost_id_may_collide (w : World) (n : nat) (s : State) (u : User)
    (created : Post) (now : Z) :
  blank (postTitle s) = false ->
  blank (postBody s) = false ->
  selectedUser s = Some u ->
  accepted (answer w n (PostPost (mkNewPost (trim (postTitle s))
                                            (trim (postBody s)) (user_id u))))
    = Some created ->
  reply w (S n) DateNow = now ->
  In (IdNum now)
     (map post_id (posts (meanwhile w n (setPostLoading true s)))) ->
  ~ NoDup (map post_id (posts (final (run w (createPost s) n s)))).
Proof.
  intros Ht Hb Hu Hacc Hnow Hin. apply accepted_Some in Hacc.
  unfold createPost, selectedUser_id.
  rewrite !missing_iff_blank, Ht, Hb, Hu. cbn -[lit]. rewrite Hacc.
  cbn -[lit]. rewrite Hnow. intros Hnd.
  inversion Hnd as [|? ? Hnotin _]. contradiction.
Qed.

Lemma createPost_id_may_collide_witness :
  blank (postTitle Demo.drafting) = false
  /\ ~ NoDup (map post_id
                (posts (final (run (Demo.world Demo.up)
                                 (createPost Demo.drafting) 0
                                 (setPosts
                                    [post_with_id Demo.hello
                                       (IdNum 1700000000000)]
                                    Demo.drafting))))).
Proof.
  split; [reflexivity|].
  refine (@createPost_id_may_collide (Demo.world Demo.up) 0
            (setPosts [post_with_id Demo.hello (IdNum 1700000000000)]
                      Demo.drafting)
            Demo.alice Demo.hello 1700000000000
            eq_refl eq_refl eq_refl eq_refl eq_refl _).
  left. reflexivity.
Defined.
